(** * Building a CPI Bid Model (Part 4): the notebook's own logic

    A shallow embedding of the data-wrangling code of
    [bid-model-tutorial_step-4.ipynb]: the resampler (cell 4), the splitters
    (cells 6, 26, 33, 39), the evaluator ([predict] and the error columns),
    the tuning-job poll loop (cell 13), the model inspector (cells 20, 22)
    and the descriptor file (cells 43, 44).

    Conventions.
    - A dataframe is its column names and its rows in order; a row carries
      its index label, its [conversion_rate] and its feature values.
    - Python floats are idealised as exact rationals ([Q]); [round] is
      Python 3's round-half-to-even.
    - [DataFrame.sample] draws positions without replacement; the random
      generator is an explicit argument (a list of draws), so "every possible
      output" is a statement for every generator.
    - A Python exception is the [Raise] branch of [result]. *)

From Stdlib Require Import String Ascii List Bool Arith ZArith QArith Qround Qabs Lia Lqa
  Permutation.
Import ListNotations.

Set Implicit Arguments.

(** ** Exceptions and results *)

Inductive exn : Type :=
| ZeroDivisionError
| ValueError (msg : string)
| NameError (name : string)
| RemoteFault.

Inductive result (A : Type) : Type :=
| Ok (a : A)
| Raise (e : exn).

Arguments Ok {A} a.
Arguments Raise {A} e.

Definition bind {A B : Type} (m : result A) (k : A -> result B) : result B :=
  match m with
  | Ok a => k a
  | Raise e => Raise e
  end.

Notation "x <- m ;; k" := (bind m (fun x => k))
  (at level 61, m at next level, right associativity).

(** ** Dataframes *)

Module Frame.

Record Row : Type := mkRow {
  index : nat;              (* the row's index label *)
  conversion_rate : Q;      (* the label column *)
  features : list Q         (* the remaining columns, in column order *)
}.

Record DataFrame : Type := mkFrame {
  columns : list string;
  rows : list Row
}.

(** [len(df)] *)
Definition len (df : DataFrame) : nat := length (rows df).

(** [df.index] *)
Definition labels (l : list Row) : list nat := map index l.

(** The boolean mask [df['conversion_rate'] > 0]. *)
Definition converted (r : Row) : bool :=
  match (0 ?= conversion_rate r)%Q with
  | Lt => true
  | _ => false
  end.

(** [df.loc[mask]]: the rows where the mask holds, order and labels kept. *)
Definition loc (mask : Row -> bool) (df : DataFrame) : DataFrame :=
  mkFrame (columns df) (filter mask (rows df)).

(** [df.drop(labels)]: every row whose label is listed is removed. *)
Definition drop (ls : list nat) (df : DataFrame) : DataFrame :=
  mkFrame (columns df)
          (filter (fun r => negb (existsb (Nat.eqb (index r)) ls)) (rows df)).

(** Python 3 [round]: to the nearest integer, ties to the even one. *)
Definition round_half_even (q : Q) : Z :=
  let f := Qfloor q in
  match (q - inject_Z f ?= 1 # 2)%Q with
  | Lt => f
  | Gt => (f + 1)%Z
  | Eq => if Z.even f then f else (f + 1)%Z
  end.

(** Removing the element at position [k]. *)
Fixpoint remove_nth {A : Type} (k : nat) (l : list A) : list A :=
  match l with
  | [] => []
  | x :: t => match k with
              | O => t
              | S k' => x :: remove_nth k' t
              end
  end.

(** The generator's permutation of a population: each draw picks one of the
    elements still in the urn.  [fuel] is the number of elements to place. *)
Fixpoint shuffle {A : Type} (rng : list nat) (urn : list A) (fuel : nat)
  : list A :=
  match fuel with
  | O => []
  | S fuel' =>
      match urn with
      | [] => []
      | x :: t =>
          let k := Nat.modulo (hd O rng) (length urn) in
          nth k urn x :: shuffle (tl rng) (remove_nth k urn) fuel'
      end
  end.

(** [rs.choice(axis_length, size=n, replace=False)] followed by [take]:
    the first [n] rows of the generator's permutation. *)
Definition choice (rng : list nat) (n : nat) (l : list Row) : list Row :=
  firstn n (shuffle rng l (length l)).

(** [df.sample(frac=frac)] with the default [replace=False].  The sample has
    [n = int(round(frac * len(df)))] rows; a negative [n], or more rows than
    the frame holds, is a [ValueError]. *)
Definition sample (rng : list nat) (frac : Q) (df : DataFrame)
  : result DataFrame :=
  let n := round_half_even (frac * inject_Z (Z.of_nat (len df)))%Q in
  if (n <? 0)%Z then
    Raise (ValueError "A negative number of rows requested")
  else if (Z.of_nat (len df) <? n)%Z then
    Raise (ValueError "Cannot take a larger sample than population when 'replace=False'")
  else
    Ok (mkFrame (columns df) (choice rng (Z.to_nat n) (rows df))).

(** Fresh labels [0, 1, ...]: [ignore_index=True]. *)
Fixpoint reindex_from (i : nat) (l : list Row) : list Row :=
  match l with
  | [] => []
  | r :: t => mkRow i (conversion_rate r) (features r) :: reindex_from (S i) t
  end.

(** [pd.concat([a, b], axis=0, ignore_index=True)] of two frames with the
    same columns. *)
Definition concat_ignore_index (a b : DataFrame) : DataFrame :=
  mkFrame (columns a) (reindex_from O (rows a ++ rows b)).

End Frame.
Import Frame.

(** ** Resampler (cell 4) *)

Module Resampler.

(** [len(sampled_data) * 20.0 / (len(df) - len(sampled_data))]; Python raises
    [ZeroDivisionError] on a zero divisor. *)
Definition sample_rate (df : DataFrame) : result Q :=
  let c := len (loc converted df) in
  let m := (len df - c)%nat in
  if Nat.eqb m O then Raise ZeroDivisionError
  else Ok (inject_Z (Z.of_nat c) * 20 / inject_Z (Z.of_nat m))%Q.

(** The whole cell: the converted rows, then a sample of the full frame. *)
Definition resample (rng : list nat) (df : DataFrame) : result DataFrame :=
  let sampled_data := loc converted df in
  rate <- sample_rate df ;;
  drawn <- sample rng rate df ;;
  Ok (concat_ignore_index sampled_data drawn).

(** The share of the rows with [conversion_rate > 0]. *)
Definition minority_share (l : list Row) : Q :=
  (inject_Z (Z.of_nat (length (filter converted l)))
   / inject_Z (Z.of_nat (length l)))%Q.

(** What a row holds, whatever its label. *)
Definition content (r : Row) : Q * list Q := (conversion_rate r, features r).

(** The specification's wording of the step: the output is the converted
    rows followed by rows drawn from the frame with replacement, so a row may
    be drawn any number of times and any number of rows may be drawn. *)
Definition oversampled (df out : DataFrame) : Prop :=
  exists drawn : list (Q * list Q),
    map content (rows out)
    = map content (rows (loc converted df)) ++ drawn
    /\ Forall (fun c => In c (map content (rows df))) drawn.

End Resampler.

(** ** Splitter (cells 6, 26, 33, 39) *)

Module Splitter.

(** Cell 6: [train_data = sampled_data.sample(frac=.9)] and
    [validation_data = sampled_data.drop(train_data.index)]. *)
Definition split_train_validation (rng : list nat) (sampled_data : DataFrame)
  : result (DataFrame * DataFrame) :=
  train_data <- sample rng (9 # 10) sampled_data ;;
  Ok (train_data, drop (labels (rows train_data)) sampled_data).

(** Cells 26, 33 and 39:
    [train_data = model_df.sample(frac=.7)],
    [validation_data = model_df.drop(train_data.index).sample(frac=.66)],
    [test_data = model_df.drop(train_data.index).drop(validation_data.index)]. *)
Definition split_train_validation_test (rng1 rng2 : list nat)
  (model_df : DataFrame) : result (DataFrame * DataFrame * DataFrame) :=
  train_data <- sample rng1 (7 # 10) model_df ;;
  validation_data <-
    sample rng2 (66 # 100) (drop (labels (rows train_data)) model_df) ;;
  Ok (train_data, validation_data,
      drop (labels (rows validation_data))
           (drop (labels (rows train_data)) model_df)).

End Splitter.

(** ** Evaluator (cells 9, 17, 29, 35, 41) *)

Module Evaluator.

(** The inference endpoint, an opaque function of the feature vector. *)
Definition Endpoint : Type := list Q -> Q.

(** The requests the endpoint has served, oldest first. *)
Definition Log : Type := list (list Q).

(** [ll_predictor.predict(array)], then [result['predictions'][0]['score']]. *)
Definition invoke (ep : Endpoint) (array : list Q) (log : Log) : Q * Log :=
  (ep array, log ++ [array]).

(** [predict(data)]: one request per row of the matrix, the scores appended
    in turn. *)
Definition predict (ep : Endpoint) (data : list (list Q)) (log : Log)
  : list Q * Log :=
  fold_left
    (fun (acc : list Q * Log) (array : list Q) =>
       let (score, log') := invoke ep array (snd acc) in
       (fst acc ++ [score], log'))
    data ([], log).

(** [test_data.drop(['conversion_rate'], axis=1).as_matrix()] *)
Definition as_matrix (test_data : list Row) : list (list Q) :=
  map features test_data.

(** [np.abs(test_data['prediction'] - test_data['conversion_rate'])], the
    prediction column assigned by position. *)
Definition error_column (predictions : list Q) (test_data : list Row)
  : list Q :=
  map (fun pr : Q * Row => Qabs (fst pr - conversion_rate (snd pr)))
      (combine predictions test_data).

Definition total (xs : list Q) : Q := fold_left Qplus xs 0%Q.

(** [Series.mean()]: [None] stands for the NaN of an empty series. *)
Definition mean (xs : list Q) : option Q :=
  match xs with
  | [] => None
  | _ => Some (total xs / inject_Z (Z.of_nat (length xs)))%Q
  end.

(** The two printed figures and the endpoint's log afterwards. *)
Definition evaluate (ep : Endpoint) (test_data : list Row) (log : Log)
  : option Q * option Q * Log :=
  let (prediction, log') := predict ep (as_matrix test_data) log in
  let error := error_column prediction test_data in
  let nonzero :=
    map fst (filter (fun er : Q * Row => converted (snd er))
                    (combine error test_data)) in
  (mean error, mean nonzero, log').

(** The arithmetic mean of the absolute errors, as the claim words it. *)
Definition mean_absolute_error (ep : Endpoint) (test_data : list Row) : Q :=
  (fold_right Qplus 0
     (map (fun r => Qabs (ep (features r) - conversion_rate r)) test_data)
   / inject_Z (Z.of_nat (length test_data)))%Q.

End Evaluator.

(** ** Hyperparameter search driver: the poll loop (cell 13) *)

Module Tuning.

(** The remote service: the answer to the [k]-th
    [describe_hyper_parameter_tuning_job] call, either the value of
    ['HyperParameterTuningJobStatus'] or an exception of the client. *)
Definition Service : Type := nat -> result string.

Inductive state : Type :=
| Waiting (k : nat) (status : string)
    (* [tuning_job_result] holds answer [k]; the loop test is next *)
| ReadBest (k : nat)
    (* the loop is left; [tuned_hyper_params] is read from answer [k] *)
| Faulted (e : exn).

Definition completed (status : string) : bool :=
  String.eqb status "Completed".

(** One [describe_hyper_parameter_tuning_job] call. *)
Definition describe (svc : Service) (k : nat) : state :=
  match svc k with
  | Ok status => Waiting k status
  | Raise e => Faulted e
  end.

(** The call before the loop. *)
Definition start (svc : Service) : state := describe svc O.

(** The loop test, and either the exit or one turn of the body. *)
Inductive step (svc : Service) : state -> state -> Prop :=
| step_exit : forall k status,
    completed status = true ->
    step svc (Waiting k status) (ReadBest k)
| step_poll : forall k status,
    completed status = false ->
    step svc (Waiting k status) (describe svc (S k)).

Inductive reachable (svc : Service) : state -> Prop :=
| reach_start : reachable svc (start svc)
| reach_step : forall s s', reachable svc s -> step svc s s' ->
                            reachable svc s'.

(** The same machine as a function; terminal states stay put. *)
Definition next (svc : Service) (s : state) : state :=
  match s with
  | Waiting k status =>
      if completed status then ReadBest k else describe svc (S k)
  | _ => s
  end.

Fixpoint run (svc : Service) (n : nat) : state :=
  match n with
  | O => start svc
  | S n' => next svc (run svc n')
  end.

Definition terminal (s : state) : bool :=
  match s with
  | Waiting _ _ => false
  | _ => true
  end.

(** Every answer before the [k]-th was a status other than ['Completed']. *)
Definition still_running_before (svc : Service) (k : nat) : Prop :=
  forall i, (i < k)%nat ->
    exists status, svc i = Ok status /\ completed status = false.

(** What the loop knows in each state it can be in. *)
Definition consistent (svc : Service) (s : state) : Prop :=
  match s with
  | Waiting k status => svc k = Ok status /\ still_running_before svc k
  | ReadBest k =>
      svc k = Ok "Completed"%string /\ still_running_before svc k
  | Faulted e => exists k, svc k = Raise e /\ still_running_before svc k
  end.

(** A service whose job has failed for good. *)
Definition always_failed : Service := fun _ => Ok "Failed"%string.

End Tuning.

(** ** Model inspector: weights by top-level feature (cells 20, 22) *)

Module Inspector.

(** [col.split('-')[0]]: the text before the first ['-'], the whole name
    when it has none. *)
Fixpoint before_dash (col : string) : string :=
  match col with
  | EmptyString => EmptyString
  | String c rest =>
      if Ascii.eqb c "-"%char then EmptyString
      else String c (before_dash rest)
  end.

(** [s.startswith(p)] *)
Definition startswith (s p : string) : bool := String.prefix p s.

(** [sampled_data.columns[1:]] *)
Definition feature_columns (cols : list string) : list string := tl cols.

(** [pd.DataFrame({'feature': ...})] with its ['weights'] column; pandas
    refuses a column of another length. *)
Definition model_weights (cols : list string) (weights : list Q)
  : result (list (string * Q)) :=
  if Nat.eqb (length weights) (length (feature_columns cols)) then
    Ok (combine (feature_columns cols) weights)
  else Raise (ValueError "Length of values does not match length of index").

(** [set([col.split('-')[0] for col in sampled_data.columns[1:]])], listed
    once each. *)
Definition top_level_features (cols : list string) : list string :=
  nodup string_dec (map before_dash (feature_columns cols)).

(** [model_weights.loc[model_weights['feature'].str.startswith(feature)]] *)
Definition select (feature : string) (mw : list (string * Q))
  : list (string * Q) :=
  filter (fun fw => startswith (fst fw) feature) mw.

Definition abs_weights (sel : list (string * Q)) : list Q :=
  map (fun fw => Qabs (snd fw)) sel.

Fixpoint insert_sorted (x : Q) (l : list Q) : list Q :=
  match l with
  | [] => [x]
  | y :: t => if Qle_bool x y then x :: l else y :: insert_sorted x t
  end.

Definition sort (l : list Q) : list Q := fold_right insert_sorted [] l.

(** [Series.median()] *)
Definition median (xs : list Q) : option Q :=
  match xs with
  | [] => None
  | _ =>
      let s := sort xs in
      let n := length s in
      if Nat.even n
      then Some ((nth (n / 2 - 1) s 0 + nth (n / 2) s 0) / 2)%Q
      else Some (nth (n / 2) s 0%Q)
  end.

Definition extremum (pick : Q -> Q -> bool) (xs : list Q) : option Q :=
  match xs with
  | [] => None
  | x :: t => Some (fold_left (fun m y => if pick y m then y else m) t x)
  end.

(** [Series.min()] and [Series.max()] *)
Definition minimum : list Q -> option Q := extremum Qle_bool.
Definition maximum : list Q -> option Q :=
  extremum (fun y m => Qle_bool m y).

Record Stats : Type := mkStats {
  stat_mean : option Q;
  stat_med : option Q;
  stat_min : option Q;
  stat_max : option Q
}.

(** One turn of the loop over [top_level_weights['features']].  The stdev
    column is computed from the same selection [_weights]. *)
Definition feature_stats (mw : list (string * Q)) (feature : string) : Stats :=
  let _weights := abs_weights (select feature mw) in
  mkStats (Evaluator.mean _weights) (median _weights)
          (minimum _weights) (maximum _weights).

(** The table [top_level_weights]. *)
Definition top_level_weights (cols : list string) (weights : list Q)
  : result (list (string * Stats)) :=
  mw <- model_weights cols weights ;;
  Ok (map (fun feature => (feature, feature_stats mw feature))
          (top_level_features cols)).

(** The groups a feature's weight is counted in. *)
Definition groups_of (cols : list string) (col : string) : list string :=
  filter (startswith col) (top_level_features cols).

End Inspector.

(** ** The descriptor file (cells 43, 44) *)

Module Descriptor.

#[local] Unset Elimination Schemes.
Inductive json : Type :=
| JString (s : string)
| JArray (items : list json)
| JObject (members : list (string * json)).
#[local] Set Elimination Schemes.

(** What the managed platform holds. *)
Record Cloud : Type := mkCloud {
  training_jobs : list string;
  endpoints : list string
}.

(** The estimator [ll], as far as the cells use it. *)
Record Estimator : Type := mkEstimator {
  latest_training_job : option string
}.

(** [ll.fit(inputs, job_name=job_name)] *)
Definition fit (job_name : string) (cloud : Cloud) : Estimator * Cloud :=
  (mkEstimator (Some job_name),
   mkCloud (training_jobs cloud ++ [job_name]) (endpoints cloud)).

(** [ll.deploy(initial_instance_count, instance_type)] with no
    [endpoint_name]: the SDK's estimator names the endpoint after its latest
    training job, and refuses to deploy without one.  The predictor returned
    carries the endpoint's name. *)
Definition deploy (ll : Estimator) (cloud : Cloud) : result (string * Cloud) :=
  match latest_training_job ll with
  | None => Raise (ValueError "Estimator is not associated with a training job")
  | Some job =>
      Ok (job, mkCloud (training_jobs cloud) (endpoints cloud ++ [job]))
  end.

(** [l.remove(x)]: the first occurrence goes; [ValueError] when there is
    none. *)
Fixpoint list_remove (x : string) (l : list string) : result (list string) :=
  match l with
  | [] => Raise (ValueError "list.remove(x): x not in list")
  | y :: t =>
      if String.eqb y x then Ok t
      else t' <- list_remove x t ;; Ok (y :: t')
  end.

(** ['canary-cpi-model-sampled-{timestamp}'.format(timestamp=int(time.time()))],
    the clock's reading given in decimal. *)
Definition sampled_job_name (timestamp : string) : string :=
  ("canary-cpi-model-sampled-" ++ timestamp)%string.

Record Outcome : Type := mkOutcome {
  written : json;            (* the content of data/prod_model.json *)
  predictor_endpoint : string;   (* the endpoint behind [ll_predictor] *)
  cloud_after : Cloud
}.

(** Cell 43 from the assignment of [job_name] on, then cell 44. *)
Definition final_cells (timestamp : string) (sampled_data : DataFrame)
  (cloud : Cloud) : result Outcome :=
  let job_name := sampled_job_name timestamp in
  let (ll, cloud1) := fit job_name cloud in
  deployed <- deploy ll cloud1 ;;
  features <- list_remove "conversion_rate" (columns sampled_data) ;;
  let prod_model :=
    JObject [("features"%string, JArray (map JString features));
             ("endpoint_name"%string, JString job_name)] in
  Ok (mkOutcome prod_model (fst deployed) (snd deployed)).

End Descriptor.

(** ** The notebook as a sequence of name bindings

    Each top-level statement is recorded with the global names it reads (in
    evaluation order, each once), the names it binds and what it does to the
    outside world.  The body of [predict] is charged to its call; a loop is
    listed with its body once. *)

Module Notebook.

Local Open Scope string_scope.
Local Open Scope list_scope.

Inductive effect : Type :=
| Shell | ReadFile | WriteFile | RemoveFile | Upload | Download
| Remote | Sleep | Print | Plot.

Record stmt : Type := mkStmt {
  reads : list string;
  binds : list string;
  effects : list effect
}.

Definition import (names : list string) : stmt := mkStmt [] names [].
Definition assign (targets uses : list string) : stmt := mkStmt uses targets [].
Definition expr (uses : list string) : stmt := mkStmt uses [] [].
Definition call (uses : list string) (e : effect) : stmt := mkStmt uses [] [e].
Definition assign_call (targets uses : list string) (e : effect) : stmt :=
  mkStmt uses targets [e].

Definition cell : Type := list stmt.

Record kernel : Type := mkKernel {
  namespace : list string;
  log : list effect
}.

Definition bound (k : kernel) (name : string) : bool :=
  existsb (String.eqb name) (namespace k).

(** A statement evaluates its names first: the first unbound one raises
    [NameError] and nothing else happens. *)
Definition exec_stmt (s : stmt) (k : kernel) : kernel * option exn :=
  match find (fun name => negb (bound k name)) (reads s) with
  | Some name => (k, Some (NameError name))
  | None => (mkKernel (binds s ++ namespace k) (log k ++ effects s), None)
  end.

Fixpoint exec (c : cell) (k : kernel) : kernel * option exn :=
  match c with
  | [] => (k, None)
  | s :: rest =>
      match exec_stmt s k with
      | (k', None) => exec rest k'
      | stopped => stopped
      end
  end.

(** A fresh kernel: the builtins the notebook uses, nothing done yet. *)
Definition fresh_kernel : kernel :=
  mkKernel ["print"; "len"; "int"; "list"; "set"; "open"] [].

Definition cell_imports : cell :=
  [ call [] Shell; call [] Shell; call [] Shell;
    import ["boto3"]; import ["sagemaker"]; import ["get_image_uri"];
    import ["csv_serializer"; "json_deserializer"];
    import ["get_execution_role"]; import ["time"]; import ["np"];
    import ["pd"]; import ["os"]; import ["sys"]; import ["tarfile"];
    import ["joblib"]; import ["json"]; import ["xgboost"]; import ["plt"];
    import ["mx"]; import ["TrainingJobAnalytics"] ].

Definition cell_load : cell :=
  [ assign_call ["df"] ["pd"] ReadFile; expr ["df"] ].

Definition cell_resample : cell :=
  [ assign ["sampled_data"] ["df"];
    assign ["sample_rate"] ["len"; "sampled_data"; "df"];
    call ["print"; "sample_rate"] Print;
    assign ["sampled_data"] ["pd"; "sampled_data"; "df"; "sample_rate"];
    call ["print"; "sampled_data"] Print ].

(** Writing the two files, uploading them and removing them again. *)
Definition export : cell :=
  [ call ["pd"; "train_data"] WriteFile;
    call ["pd"; "validation_data"] WriteFile;
    assign ["bucket"] []; assign ["prefix"] [];
    call ["boto3"; "bucket"; "os"; "prefix"] Upload;
    call ["boto3"; "bucket"; "os"; "prefix"] Upload;
    call ["os"] RemoveFile; call ["os"] RemoveFile ].

Definition cell_split_sampled : cell :=
  [ assign ["train_data"] ["sampled_data"];
    assign ["validation_data"] ["sampled_data"; "train_data"] ]
  ++ export ++ [ expr ["train_data"] ].

(** The training cells differ in whether [role] is fetched again, whether
    [s3_input_validation] is assigned and whether [fit] is given it, where
    [feature_dim] comes from, and in the extra hyperparameters. *)
Definition cell_train (fetch_role validation fit_validation : bool)
  (dims : string) (extra : list string) : cell :=
  [ assign_call ["container"] ["get_image_uri"; "boto3"] Remote;
    assign ["bucket"] []; assign ["prefix"] [];
    assign_call ["session"] ["sagemaker"] Remote ]
  ++ (if fetch_role
      then [ assign_call ["role"] ["get_execution_role"] Remote ] else [])
  ++ [ assign ["ll"]
         ["sagemaker"; "container"; "role"; "bucket"; "prefix"; "session"];
       expr (["ll"; "len"; dims] ++ extra);
       assign ["s3_input_train"] ["sagemaker"; "bucket"; "prefix"] ]
  ++ (if validation
      then [ assign ["s3_input_validation"] ["sagemaker"; "bucket"; "prefix"] ]
      else [])
  ++ [ assign ["job_name"] ["int"; "time"];
       call (["ll"; "s3_input_train"]
             ++ (if fit_validation then ["s3_input_validation"] else [])
             ++ ["job_name"]) Remote ].

Definition cell_deploy_predict : cell :=
  [ assign_call ["ll_predictor"] ["ll"] Remote;
    expr ["ll_predictor"];
    expr ["csv_serializer"; "ll_predictor"];
    expr ["json_deserializer"; "ll_predictor"];
    assign ["predict"] [];
    call ["predict"; "test_data"; "ll_predictor"; "np"] Remote;
    expr ["np"; "test_data"];
    call ["print"; "test_data"] Print;
    call ["print"; "test_data"] Print ].

Definition cell_evaluate : cell :=
  assign_call ["test_data"] ["pd"] ReadFile :: cell_deploy_predict.

Definition cell_tuner : cell :=
  [ import ["IntegerParameter"; "CategoricalParameter"; "ContinuousParameter";
            "HyperparameterTuner"];
    assign ["hyperparameter_ranges"]
      ["ContinuousParameter"; "IntegerParameter"; "CategoricalParameter"];
    assign ["objective_metric_name"] [];
    assign ["tuner"]
      ["HyperparameterTuner"; "ll"; "objective_metric_name";
       "hyperparameter_ranges"];
    assign ["job_name"] ["int"; "time"];
    call ["tuner"; "s3_input_train"; "s3_input_validation"; "job_name"]
      Remote ].

Definition cell_poll : cell :=
  [ assign ["sage_client"] ["boto3"];
    assign_call ["tuning_job_result"] ["sage_client"; "job_name"] Remote;
    expr ["tuning_job_result"];
    call ["print"] Print;
    call ["time"] Sleep;
    assign_call ["tuning_job_result"] ["sage_client"; "job_name"] Remote;
    assign ["tuned_hyper_params"] ["tuning_job_result"] ].

Definition cell_inspect : cell :=
  [ import ["os"]; import ["mx"]; import ["boto3"];
    assign ["key"] ["prefix"; "jobname"];
    call ["boto3"; "bucket"; "key"] Download;
    call ["os"] Shell;
    call ["os"] Shell;
    assign_call ["mod"] ["mx"] ReadFile;
    assign ["weights"] ["mod"];
    assign ["model_weights"] ["pd"; "list"; "sampled_data"];
    expr ["model_weights"];
    expr ["weights"; "model_weights"];
    expr ["model_weights"] ].

Definition cell_aggregate : cell :=
  [ assign ["top_level_features"] ["set"; "sampled_data"];
    assign ["top_level_weights"] ["pd"; "list"; "top_level_features"];
    assign ["mean_weight"] []; assign ["med_weight"] [];
    assign ["min_weight"] []; assign ["max_weight"] [];
    assign ["dev_weight"] [];
    assign ["feature"] ["top_level_weights"];
    assign ["_weights"] ["model_weights"; "feature"];
    expr ["mean_weight"; "_weights"]; expr ["med_weight"; "_weights"];
    expr ["min_weight"; "_weights"]; expr ["max_weight"; "_weights"];
    expr ["dev_weight"; "_weights"];
    expr ["mean_weight"; "top_level_weights"];
    expr ["med_weight"; "top_level_weights"];
    expr ["min_weight"; "top_level_weights"];
    expr ["max_weight"; "top_level_weights"];
    expr ["dev_weight"; "top_level_weights"];
    expr ["top_level_weights"] ].

Definition cell_plot : cell :=
  [ assign ["top_level_weights"] ["top_level_weights"];
    assign_call ["ax"] ["top_level_weights"] Plot ].

Definition split3 : cell :=
  [ assign ["train_data"] ["model_df"];
    assign ["validation_data"] ["model_df"; "train_data"];
    assign ["test_data"] ["model_df"; "train_data"; "validation_data"] ].

(** [drops] is the number of [model_df = model_df[[...]]] lines. *)
Definition cell_slim (drops : nat) : cell :=
  assign ["model_df"] ["sampled_data"]
  :: repeat (assign ["model_df"] ["model_df"]) drops
  ++ split3 ++ export.

Definition cell_histogram : cell := [ call ["model_weights"] Plot ].

Definition cell_threshold : cell :=
  [ assign ["feat_to_keep"] ["model_weights"];
    assign ["model_df"] ["sampled_data"; "feat_to_keep"];
    expr ["sampled_data"; "model_df"] ]
  ++ split3 ++ export.

Definition cell_final_train : cell :=
  cell_train false false false "sampled_data" ["tuned_hyper_params"]
  ++ [ assign_call ["ll_predictor"] ["ll"] Remote ].

Definition cell_descriptor : cell :=
  [ assign ["features"] ["list"; "sampled_data"];
    expr ["features"];
    assign ["prod_model"] ["features"; "job_name"];
    assign_call ["f"] ["open"] WriteFile;
    call ["f"; "json"; "prod_model"] WriteFile ].

(** The code cells before the model-inspection cell, in order. *)
Definition cells_before_inspect : list cell :=
  [ cell_imports; cell_load; cell_resample; cell_split_sampled;
    cell_train true true false "sampled_data" [];
    cell_evaluate; cell_tuner; cell_poll;
    cell_train false false false "sampled_data" ["tuned_hyper_params"];
    cell_evaluate ].

(** The code cells after it. *)
Definition cells_after_inspect : list cell :=
  [ cell_aggregate; cell_plot;
    cell_slim 3; cell_train false true true "train_data" []; cell_deploy_predict;
    cell_plot;
    cell_slim 5; cell_train false true true "train_data" []; cell_deploy_predict;
    cell_histogram;
    cell_threshold; cell_train false true true "train_data" [];
    cell_deploy_predict;
    cell_final_train; cell_descriptor ].

Definition notebook : list cell :=
  cells_before_inspect ++ [cell_inspect] ++ cells_after_inspect.

(** Every name some statement of the notebook binds. *)
Definition bound_somewhere (cells : list cell) : list string :=
  flat_map (flat_map binds) cells.

End Notebook.

(** ** Small frames used as test inputs *)

Module Examples.

Definition cols : list string :=
  ["conversion_rate"; "platform-ios"; "platform_device_make-apple"]%string.

Definition hit (i : nat) : Row := mkRow i (1 # 100) [1; 0]%Q.
Definition miss (i : nat) : Row := mkRow i 0 [0; 1]%Q.

(** One converted row and [m] rows that are not. *)
Definition one_in (m : nat) : DataFrame :=
  mkFrame cols (hit 0 :: map miss (seq 1 m)).

(** A generator that always picks the second row left in the urn. *)
Definition second_each_time (n : nat) : list nat := repeat 1%nat n.

End Examples.

(** ** Column selection and the exported files (cells 6, 26, 33, 39)

    Here a frame is kept cell by cell: the column labels, and for each row
    its index label and one value per column.  A label may name several
    columns; selecting by label then yields all of them, in column order. *)

Module Table.

Record table : Type := mkTable {
  header : list string;
  body : list (nat * list Q)
}.

(** A lookup of a label that names no column raises [KeyError]; the other
    exceptions are those of [exn]. *)
Inductive fault : Type :=
| KeyError (key : string)
| Other (e : exn).

Inductive outcome (A : Type) : Type :=
| Got (a : A)
| Failed (f : fault).

Arguments Got {A} a.
Arguments Failed {A} f.

Definition and_then {A B : Type} (m : outcome A) (k : A -> outcome B)
  : outcome B :=
  match m with
  | Got a => k a
  | Failed f => Failed f
  end.

(** Every row has one value per column. *)
Definition well_formed (t : table) : Prop :=
  Forall (fun r => length (snd r) = length (header t)) (body t).

(** The values of a row under the columns whose label passes [keep]. *)
Fixpoint cells_where (keep : string -> bool) (hdr : list string)
  (cells : list Q) : list Q :=
  match hdr, cells with
  | h :: hs, c :: cs =>
      if keep h then c :: cells_where keep hs cs else cells_where keep hs cs
  | _, _ => []
  end.

(** [df[[name, ...]]]: for each name in turn, every column so labelled;
    [KeyError] for the first name that labels none. *)
Definition getitem_list (names : list string) (t : table) : outcome table :=
  match find (fun n => negb (existsb (String.eqb n) (header t))) names with
  | Some n => Failed (KeyError n)
  | None =>
      Got (mkTable
             (flat_map (fun n => filter (String.eqb n) (header t)) names)
             (map (fun r =>
                     (fst r,
                      flat_map
                        (fun n => cells_where (String.eqb n) (header t) (snd r))
                        names))
                  (body t)))
  end.

(** [model_df[[col for col in model_df if not col.startswith(p)]]] *)
Definition drop_prefix (p : string) (model_df : table) : outcome table :=
  getitem_list
    (filter (fun col => negb (Inspector.startswith col p)) (header model_df))
    model_df.

(** The [model_df = ...] lines of cells 26 and 33, one per prefix. *)
Definition slim (prefixes : list string) (sampled_data : table)
  : outcome table :=
  fold_left (fun model_df p => and_then model_df (drop_prefix p))
            prefixes (Got sampled_data).

(** A column label that none of the prefixes starts. *)
Definition survives (prefixes : list string) (col : string) : bool :=
  forallb (fun p => negb (Inspector.startswith col p)) prefixes.

(** A frame cut down to the columns whose label passes [keep]. *)
Definition masked (keep : string -> bool) (t : table) : table :=
  mkTable (filter keep (header t))
          (map (fun r => (fst r, cells_where keep (header t) (snd r)))
               (body t)).

Definition cell_26_prefixes : list string :=
  ["inventory_source"; "app_bundle"; "platform_device_make"]%string.

Definition cell_33_prefixes : list string :=
  ["inventory_interstitial"; "banner_height"; "placement_type";
   "platform_bandwidth"; "banner_width"]%string.

Definition is_label (col : string) : bool :=
  String.eqb col "conversion_rate".

(** [pd.concat([t['conversion_rate'], t.drop(['conversion_rate'], axis=1)],
    axis=1).to_csv(path, index=False, header=False)]: the records written,
    one per row, each a list of fields.  Both [t['conversion_rate']] and
    [drop] raise [KeyError] when no column has the label. *)
Definition to_csv_rows (t : table) : outcome (list (list Q)) :=
  if existsb is_label (header t) then
    Got (map (fun r =>
                cells_where is_label (header t) (snd r)
                ++ cells_where (fun col => negb (is_label col))
                               (header t) (snd r))
             (body t))
  else Failed (KeyError "conversion_rate").

(** [feature_dim=len(df.columns)-1], the dimension the estimator is given. *)
Definition feature_dim (cols : list string) : Z :=
  (Z.of_nat (length cols) - 1)%Z.

(** [model_weights.loc[model_weights['weights'].abs() > 0.001]], the names. *)
Definition feat_to_keep (mw : list (string * Q)) : list string :=
  map fst (filter (fun fw => negb (Qle_bool (Qabs (snd fw)) (1 # 1000))) mw).

(** [model_df['conversion_rate'] = column] for a frame with the same rows:
    a new label gets a new last column, a label already there has its
    columns overwritten. *)
Fixpoint overwrite (hdr : list string) (cells : list Q) (v : Q) : list Q :=
  match hdr, cells with
  | h :: hs, c :: cs => (if is_label h then v else c) :: overwrite hs cs v
  | _, _ => []
  end.

Definition setitem_label (column : list Q) (model_df : table) : table :=
  if existsb is_label (header model_df) then
    mkTable (header model_df)
            (map (fun rv => (fst (fst rv),
                             overwrite (header model_df) (snd (fst rv)) (snd rv)))
                 (combine (body model_df) column))
  else
    mkTable (header model_df ++ ["conversion_rate"%string])
            (map (fun rv => (fst (fst rv), snd (fst rv) ++ [snd rv]))
                 (combine (body model_df) column)).

(** Cell 39 up to [model_df], for a frame whose label names one column at
    most (with two, [sampled_data['conversion_rate']] is no column but a
    frame, and the cell is not written for that: [None]). *)
Definition threshold (weights : list Q) (sampled_data : table)
  : option (outcome table) :=
  match filter is_label (header sampled_data) with
  | _ :: _ :: _ => None
  | labelled =>
      Some
        match Inspector.model_weights (header sampled_data) weights with
        | Raise e => Failed (Other e)
        | Ok mw =>
            and_then (getitem_list (feat_to_keep mw) sampled_data)
              (fun model_df =>
                 match labelled with
                 | [] => Failed (KeyError "conversion_rate")
                 | _ =>
                     Got (setitem_label
                            (map (fun r =>
                                    hd 0%Q (cells_where is_label
                                              (header sampled_data) (snd r)))
                                 (body sampled_data))
                            model_df)
                 end)
        end
  end.

End Table.

(** ** More test inputs *)

Module Samples.

Definition wide : Table.table :=
  Table.mkTable
    ["conversion_rate"; "app_bundle-a"; "banner_width-300"; "rewarded"]%string
    [ (0%nat, [1 # 100; 1; 0; 1]%Q); (1%nat, [0; 0; 1; 0]%Q) ].

Definition label_last : Table.table :=
  Table.mkTable
    ["rewarded"; "conversion_rate"]%string
    [ (0%nat, [1; 1 # 100]%Q); (1%nat, [0; 0]%Q) ].

(** Seven rows with distinct labels, none converted but the first. *)
Definition seven : DataFrame := Examples.one_in 6.

End Samples.

(** ** The resampler under Python 2's [round]

    The notebook's kernel is [conda_python2] (Python 2.7.15), whose [round]
    sends a tie away from zero where Python 3 sends it to the even
    neighbour.  The sampling and the cell are restated over the rounding
    function to compare the two. *)

Module Python2.

(** Python 2 [round]: to the nearest integer, ties away from zero. *)
Definition round_half_away (q : Q) : Z :=
  let f := Qfloor q in
  match (q - inject_Z f ?= 1 # 2)%Q with
  | Lt => f
  | Gt => (f + 1)%Z
  | Eq => if (0 <=? f)%Z then (f + 1)%Z else f
  end.

(** [df.sample(frac=frac)] with [int(round(frac * len(df)))] taken with the
    given [round]. *)
Definition sample_with (round : Q -> Z) (rng : list nat) (frac : Q)
  (df : DataFrame) : result DataFrame :=
  let n := round (frac * inject_Z (Z.of_nat (len df)))%Q in
  if (n <? 0)%Z then
    Raise (ValueError "A negative number of rows requested")
  else if (Z.of_nat (len df) <? n)%Z then
    Raise (ValueError "Cannot take a larger sample than population when 'replace=False'")
  else
    Ok (mkFrame (columns df) (choice rng (Z.to_nat n) (rows df))).

(** Cell 4 with that [round]. *)
Definition resample_with (round : Q -> Z) (rng : list nat) (df : DataFrame)
  : result DataFrame :=
  let sampled_data := loc converted df in
  rate <- Resampler.sample_rate df ;;
  drawn <- sample_with round rng rate df ;;
  Ok (concat_ignore_index sampled_data drawn).

(** [q] lies exactly half way between two integers. *)
Definition tie (q : Q) : bool :=
  match (q - inject_Z (Qfloor q) ?= 1 # 2)%Q with
  | Eq => true
  | _ => false
  end.

End Python2.

(** * Properties *)

(** ** Lists, permutations and counting *)

Section ListFacts.

Context {A : Type}.

Lemma remove_nth_length (k : nat) (l : list A) :
  (k < length l)%nat -> length (remove_nth k l) = pred (length l).
Proof.
  revert k; induction l as [|x t IH]; intros k Hk; simpl in *.
  - lia.
  - destruct k as [|k]; simpl; [reflexivity|].
    rewrite IH by lia. destruct t; simpl in *; lia.
Qed.

Lemma remove_nth_perm (k : nat) (l : list A) (d : A) :
  (k < length l)%nat -> Permutation (nth k l d :: remove_nth k l) l.
Proof.
  revert k; induction l as [|x t IH]; intros k Hk; simpl in *.
  - lia.
  - destruct k as [|k]; [apply Permutation_refl|].
    eapply perm_trans; [apply perm_swap|].
    apply perm_skip, IH. lia.
Qed.

Lemma shuffle_perm_fuel (n : nat) :
  forall (rng : list nat) (l : list A),
    length l = n -> Permutation (shuffle rng l n) l.
Proof.
  induction n as [|n IH]; intros rng l Hlen.
  - destruct l; [constructor | discriminate].
  - destruct l as [|x t]; [discriminate|].
    cbn [shuffle].
    set (k := Nat.modulo (hd O rng) (length (x :: t))).
    assert (Hk : (k < length (x :: t))%nat).
    { subst k. apply Nat.mod_upper_bound. simpl; lia. }
    eapply perm_trans; [| apply (remove_nth_perm (x :: t) x Hk)].
    apply perm_skip, IH.
    rewrite remove_nth_length by exact Hk. simpl in *; lia.
Qed.

Lemma shuffle_perm (rng : list nat) (l : list A) :
  Permutation (shuffle rng l (length l)) l.
Proof. apply shuffle_perm_fuel; reflexivity. Qed.

Lemma filter_perm (p : A -> bool) (l l' : list A) :
  Permutation l l' -> Permutation (filter p l) (filter p l').
Proof.
  induction 1 as [|x l l' _ IH|x y l|l l' l'' _ IH1 _ IH2]; simpl.
  - constructor.
  - destruct (p x); [apply perm_skip|]; exact IH.
  - destruct (p x), (p y); try apply Permutation_refl. apply perm_swap.
  - eapply perm_trans; eassumption.
Qed.

Lemma filter_length_perm (p : A -> bool) (l l' : list A) :
  Permutation l l' -> length (filter p l) = length (filter p l').
Proof. intros H. apply Permutation_length, filter_perm, H. Qed.

Lemma filter_firstn_le (p : A -> bool) (n : nat) (l : list A) :
  (length (filter p (firstn n l)) <= length (filter p l))%nat.
Proof.
  rewrite <- (firstn_skipn n l) at 2.
  rewrite filter_app, length_app. lia.
Qed.

(** Every rearrangement of the urn is the generator's permutation for some
    sequence of draws. *)
Lemma pick_position (x : A) (l : list A) (d : A) :
  In x l ->
  exists k, (k < length l)%nat /\ nth k l d = x.
Proof. intros H. destruct (In_nth l x d H) as [k [Hk E]]. eauto. Qed.

Lemma shuffle_complete (l' : list A) :
  forall l : list A,
    Permutation l' l -> exists rng, shuffle rng l (length l) = l'.
Proof.
  induction l' as [|x t' IH]; intros l Hp.
  - apply Permutation_nil in Hp. subst l. exists []. reflexivity.
  - destruct l as [|y t]; [apply Permutation_sym, Permutation_nil in Hp;
                           discriminate|].
    assert (Hin : In x (y :: t)).
    { eapply Permutation_in; [exact Hp | left; reflexivity]. }
    destruct (pick_position x (y :: t) y Hin) as [k [Hk Ek]].
    assert (Hrest : Permutation t' (remove_nth k (y :: t))).
    { apply Permutation_cons_inv with (a := x).
      eapply perm_trans; [exact Hp|].
      rewrite <- Ek. apply Permutation_sym, remove_nth_perm, Hk. }
    destruct (IH _ Hrest) as [rng Hrng].
    exists (k :: rng).
    change (shuffle (k :: rng) (y :: t) (length (y :: t)))
      with (nth (Nat.modulo k (length (y :: t))) (y :: t) y
            :: shuffle rng
                 (remove_nth (Nat.modulo k (length (y :: t))) (y :: t))
                 (length t)).
    rewrite (Nat.mod_small k (length (y :: t)) Hk), Ek. f_equal.
    rewrite remove_nth_length in Hrng by exact Hk.
    exact Hrng.
Qed.

End ListFacts.

(** ** Rounding *)

Lemma round_half_even_bounds (q : Q) :
  (Qfloor q <= round_half_even q <= Qfloor q + 1)%Z.
Proof.
  unfold round_half_even.
  destruct (q - inject_Z (Qfloor q) ?= 1 # 2)%Q; try lia.
  destruct (Z.even (Qfloor q)); lia.
Qed.

Lemma round_half_even_lower (z : Z) (q : Q) :
  (inject_Z z <= q)%Q -> (z <= round_half_even q)%Z.
Proof.
  intros H. apply Qfloor_resp_le in H. rewrite Qfloor_Z in H.
  pose proof (round_half_even_bounds q). lia.
Qed.

Lemma round_half_even_upper (z : Z) (q : Q) :
  (q <= inject_Z z)%Q -> (round_half_even q <= z)%Z.
Proof.
  intros H.
  assert (Hf : (Qfloor q <= z)%Z).
  { apply Qfloor_resp_le in H. now rewrite Qfloor_Z in H. }
  destruct (Z.eq_dec (Qfloor q) z) as [E|E].
  - unfold round_half_even. rewrite E.
    assert (Hlt : (q - inject_Z z < 1 # 2)%Q) by lra.
    rewrite Qlt_alt in Hlt. rewrite Hlt. lia.
  - pose proof (round_half_even_bounds q). lia.
Qed.

(** [frac * len] for the resampler's rate, as one quotient of integers. *)
Lemma rate_times_len (c m t : nat) :
  (m <> 0)%nat ->
  (inject_Z (Z.of_nat c) * 20 / inject_Z (Z.of_nat m) * inject_Z (Z.of_nat t)
   == inject_Z (20 * Z.of_nat c * Z.of_nat t) / inject_Z (Z.of_nat m))%Q.
Proof.
  intros Hm. rewrite !inject_Z_mult.
  change (inject_Z 20) with 20%Q.
  field. intros H.
  unfold Qeq in H; simpl in H. lia.
Qed.

Lemma quotient_lower (z a : Z) (m : nat) :
  (m <> 0)%nat -> (z * Z.of_nat m <= a)%Z ->
  (inject_Z z <= inject_Z a / inject_Z (Z.of_nat m))%Q.
Proof.
  intros Hm H. apply Qle_shift_div_l.
  - change 0%Q with (inject_Z 0). rewrite <- Zlt_Qlt. lia.
  - rewrite <- inject_Z_mult, <- Zle_Qle. exact H.
Qed.

Lemma quotient_upper (z a : Z) (m : nat) :
  (m <> 0)%nat -> (a <= z * Z.of_nat m)%Z ->
  (inject_Z a / inject_Z (Z.of_nat m) <= inject_Z z)%Q.
Proof.
  intros Hm H. apply Qle_shift_div_r.
  - change 0%Q with (inject_Z 0). rewrite <- Zlt_Qlt. lia.
  - rewrite <- inject_Z_mult, <- Zle_Qle. exact H.
Qed.

(** ** The resampler *)

Section ResamplerFacts.

Import Resampler.

Variable rng : list nat.
Variable df : DataFrame.

Let c : nat := length (filter converted (rows df)).
Let t : nat := length (rows df).
Let m : nat := (t - c)%nat.

Lemma converted_le_len : (c <= t)%nat.
Proof. apply filter_length_le. Qed.

(** The cell, case by case. *)
Lemma resample_unfold :
  resample rng df =
  if Nat.eqb m O then Raise ZeroDivisionError
  else
    let n := round_half_even
               (inject_Z (Z.of_nat c) * 20 / inject_Z (Z.of_nat m)
                * inject_Z (Z.of_nat t))%Q in
    if (n <? 0)%Z then
      Raise (ValueError "A negative number of rows requested")
    else if (Z.of_nat t <? n)%Z then
      Raise (ValueError "Cannot take a larger sample than population when 'replace=False'")
    else
      Ok (concat_ignore_index (loc converted df)
            (mkFrame (columns df) (choice rng (Z.to_nat n) (rows df)))).
Proof.
  unfold resample, sample_rate, sample, len, loc. simpl rows.
  fold c. fold t. fold m.
  destruct (Nat.eqb m O); [reflexivity|].
  cbn [bind].
  destruct (_ <? 0)%Z; [reflexivity|].
  destruct (_ <? _)%Z; reflexivity.
Qed.

Lemma sample_rate_unfold :
  sample_rate df =
  if Nat.eqb m O then Raise ZeroDivisionError
  else Ok (inject_Z (Z.of_nat c) * 20 / inject_Z (Z.of_nat m))%Q.
Proof. reflexivity. Qed.

Lemma rate_above_one :
  (m <> 0)%nat -> (m < 20 * c)%nat ->
  (1 < inject_Z (Z.of_nat c) * 20 / inject_Z (Z.of_nat m))%Q.
Proof.
  intros Hm H. apply Qlt_shift_div_l.
  - change 0%Q with (inject_Z 0). rewrite <- Zlt_Qlt. lia.
  - change 20%Q with (inject_Z 20). change 1%Q with (inject_Z 1).
    rewrite <- !inject_Z_mult, <- Zlt_Qlt. lia.
Qed.


Lemma rate_at_most_one_inv :
  (m <> 0)%nat ->
  (inject_Z (Z.of_nat c) * 20 / inject_Z (Z.of_nat m) <= 1)%Q ->
  (20 * c <= m)%nat.
Proof.
  intros Hm H.
  destruct (le_lt_dec (20 * c) m) as [L|L]; [exact L|].
  pose proof (rate_above_one Hm L). lra.
Qed.

(** The number of rows asked of [sample]. *)
Let n : Z :=
  round_half_even
    (inject_Z (Z.of_nat c) * 20 / inject_Z (Z.of_nat m)
     * inject_Z (Z.of_nat t))%Q.

Lemma size_at_least : (m <> 0)%nat -> (20 * Z.of_nat c <= n)%Z.
Proof.
  intros Hm. pose proof converted_le_len as Hc.
  apply round_half_even_lower.
  rewrite (rate_times_len c t Hm).
  apply quotient_lower; [exact Hm|]. subst m. nia.
Qed.

Lemma size_above_len :
  (m <> 0)%nat -> (m < 20 * c)%nat -> (Z.of_nat t < n)%Z.
Proof.
  intros Hm H. pose proof converted_le_len as Hc.
  assert (Hn : (Z.of_nat t + 1 <= n)%Z); [|lia].
  apply round_half_even_lower.
  rewrite (rate_times_len c t Hm).
  apply quotient_lower; [exact Hm|]. subst m. nia.
Qed.

Lemma size_at_most :
  (m <> 0)%nat -> (20 * c <= m)%nat ->
  (n <= 21 * Z.of_nat c)%Z /\ (n <= Z.of_nat t)%Z.
Proof.
  intros Hm H. pose proof converted_le_len as Hc.
  split; apply round_half_even_upper;
    rewrite (rate_times_len c t Hm);
    (apply quotient_upper; [exact Hm|]); subst m; nia.
Qed.

End ResamplerFacts.

Lemma reindex_from_length (i : nat) (l : list Row) :
  length (reindex_from i l) = length l.
Proof. revert i; induction l as [|r l IH]; intros i; simpl; auto. Qed.

Lemma reindex_from_converted (i : nat) (l : list Row) :
  length (filter converted (reindex_from i l)) = length (filter converted l).
Proof.
  revert i; induction l as [|r l IH]; intros i; simpl; [reflexivity|].
  change (converted (mkRow i (conversion_rate r) (features r)))
    with (converted r).
  destruct (converted r); simpl; rewrite IH; reflexivity.
Qed.

Lemma reindex_from_content (i : nat) (l : list Row) :
  map Resampler.content (reindex_from i l) = map Resampler.content l.
Proof.
  revert i; induction l as [|r l IH]; intros i; simpl; [reflexivity|].
  now rewrite IH.
Qed.

Lemma choice_length (rng : list nat) (n : nat) (l : list Row) :
  (n <= length l)%nat -> length (choice rng n l) = n.
Proof.
  intros H. unfold choice. rewrite length_firstn.
  rewrite (Permutation_length (shuffle_perm rng l)). lia.
Qed.

Lemma choice_count_le (p : Row -> bool) (rng : list nat) (n : nat)
  (l : list Row) :
  (length (filter p (choice rng n l)) <= length (filter p l))%nat.
Proof.
  unfold choice.
  rewrite <- (filter_length_perm p (shuffle_perm rng l)).
  apply filter_firstn_le.
Qed.

(** A sample is part of a rearrangement of the frame: no position is drawn
    twice. *)
Lemma choice_without_replacement (rng : list nat) (n : nat) (l : list Row) :
  Permutation (choice rng n l ++ skipn n (shuffle rng l (length l))) l.
Proof. unfold choice. rewrite firstn_skipn. apply shuffle_perm. Qed.

(** Conversely, every draw without replacement is the sample of some
    generator. *)
Lemma choice_complete (drawn rest l : list Row) :
  Permutation (drawn ++ rest) l ->
  exists rng, choice rng (length drawn) l = drawn.
Proof.
  intros Hp. destruct (shuffle_complete Hp) as [rng Hrng].
  exists rng. unfold choice. rewrite Hrng.
  rewrite firstn_app, Nat.sub_diag, firstn_all. simpl. apply app_nil_r.
Qed.

Lemma reindex_from_labels (i : nat) (l : list Row) :
  labels (reindex_from i l) = seq i (length l).
Proof.
  revert i; induction l as [|r l IH]; intros i; simpl; [reflexivity|].
  now rewrite IH.
Qed.

(** The resampler's output has a unique row index, as the splitter needs. *)
Lemma resample_unique_index (rng : list nat) (df out : DataFrame) :
  Resampler.resample rng df = Ok out -> NoDup (labels (rows out)).
Proof.
  unfold Resampler.resample. intros H.
  destruct (Resampler.sample_rate df) as [rate|e]; [|discriminate].
  cbn [bind] in H.
  destruct (sample rng rate df) as [drawn|e]; [|discriminate].
  cbn [bind] in H. injection H as <-.
  cbn [concat_ignore_index rows]. rewrite reindex_from_labels.
  apply seq_NoDup.
Qed.

Lemma ratio_le (a b c d : nat) :
  (0 < b)%nat -> (0 < d)%nat -> (a * d <= c * b)%nat ->
  (inject_Z (Z.of_nat a) / inject_Z (Z.of_nat b)
   <= inject_Z (Z.of_nat c) / inject_Z (Z.of_nat d))%Q.
Proof.
  intros Hb Hd H.
  assert (Qb : (0 < inject_Z (Z.of_nat b))%Q).
  { change 0%Q with (inject_Z 0). rewrite <- Zlt_Qlt. lia. }
  assert (Qd : (0 < inject_Z (Z.of_nat d))%Q).
  { change 0%Q with (inject_Z 0). rewrite <- Zlt_Qlt. lia. }
  apply Qle_shift_div_r; [exact Qb|].
  assert (E : (inject_Z (Z.of_nat c) / inject_Z (Z.of_nat d)
               * inject_Z (Z.of_nat b)
               == inject_Z (Z.of_nat c) * inject_Z (Z.of_nat b)
                  / inject_Z (Z.of_nat d))%Q).
  { field. lra. }
  rewrite E. apply Qle_shift_div_l; [exact Qd|].
  rewrite <- !inject_Z_mult, <- Zle_Qle. lia.
Qed.

Lemma ratio_lt (a b c d : nat) :
  (0 < b)%nat -> (0 < d)%nat -> (a * d < c * b)%nat ->
  (inject_Z (Z.of_nat a) / inject_Z (Z.of_nat b)
   < inject_Z (Z.of_nat c) / inject_Z (Z.of_nat d))%Q.
Proof.
  intros Hb Hd H.
  assert (Qb : (0 < inject_Z (Z.of_nat b))%Q).
  { change 0%Q with (inject_Z 0). rewrite <- Zlt_Qlt. lia. }
  assert (Qd : (0 < inject_Z (Z.of_nat d))%Q).
  { change 0%Q with (inject_Z 0). rewrite <- Zlt_Qlt. lia. }
  apply Qlt_shift_div_r; [exact Qb|].
  assert (E : (inject_Z (Z.of_nat c) / inject_Z (Z.of_nat d)
               * inject_Z (Z.of_nat b)
               == inject_Z (Z.of_nat c) * inject_Z (Z.of_nat b)
                  / inject_Z (Z.of_nat d))%Q).
  { field. lra. }
  rewrite E. apply Qlt_shift_div_l; [exact Qd|].
  rewrite <- !inject_Z_mult, <- Zlt_Qlt. lia.
Qed.

(** What a successful run of the cell looks like. *)
Lemma resample_ok_inv (rng : list nat) (df out : DataFrame) :
  Resampler.resample rng df = Ok out ->
  let c := length (filter converted (rows df)) in
  let t := length (rows df) in
  let rate := (inject_Z (Z.of_nat c) * 20
               / inject_Z (Z.of_nat (t - c)))%Q in
  let n := round_half_even (rate * inject_Z (Z.of_nat t))%Q in
  (t - c <> 0)%nat /\ (20 * c <= t - c)%nat /\ (0 <= n <= Z.of_nat t)%Z /\
  Resampler.sample_rate df = Ok rate /\
  out = concat_ignore_index (loc converted df)
          (mkFrame (columns df) (choice rng (Z.to_nat n) (rows df))).
Proof.
  intros H c t rate n.
  rewrite resample_unfold in H. rewrite sample_rate_unfold.
  fold c t in H |- *.
  destruct (Nat.eqb (t - c) O) eqn:Em; [discriminate|].
  apply Nat.eqb_neq in Em. cbv zeta in H. fold rate n in H.
  destruct (n <? 0)%Z eqn:E0; [discriminate|].
  destruct (Z.of_nat t <? n)%Z eqn:E1; [discriminate|].
  apply Z.ltb_ge in E0, E1.
  injection H as <-.
  repeat split; try assumption; try lia.
  destruct (le_lt_dec (20 * c) (t - c)) as [L|L]; [exact L|].
  pose proof (size_above_len df Em L) as Habove.
  fold c t in Habove. fold rate n in Habove. lia.
Qed.

Lemma resample_ok_intro (rng : list nat) (df : DataFrame) :
  let c := length (filter converted (rows df)) in
  let t := length (rows df) in
  let rate := (inject_Z (Z.of_nat c) * 20
               / inject_Z (Z.of_nat (t - c)))%Q in
  let n := round_half_even (rate * inject_Z (Z.of_nat t))%Q in
  (t - c <> 0)%nat -> (20 * c <= t - c)%nat ->
  Resampler.resample rng df
  = Ok (concat_ignore_index (loc converted df)
          (mkFrame (columns df) (choice rng (Z.to_nat n) (rows df)))).
Proof.
  intros c t rate n Hm H.
  rewrite resample_unfold. fold c t.
  destruct (Nat.eqb (t - c) O) eqn:Em;
    [apply Nat.eqb_eq in Em; contradiction|].
  cbv zeta. fold rate n.
  pose proof (size_at_least df Hm) as Hlow.
  pose proof (size_at_most df Hm H) as [_ Hup].
  fold c t in Hlow, Hup. fold rate n in Hlow, Hup.
  destruct (n <? 0)%Z eqn:E0; [apply Z.ltb_lt in E0; lia|].
  destruct (Z.of_nat t <? n)%Z eqn:E1; [apply Z.ltb_lt in E1; lia|].
  reflexivity.
Qed.

(** Whenever the cell does yield an output, that output is of the shape the
    specification words: the refutation below rests on the runs that raise. *)
Lemma resample_ok_oversampled (rng : list nat) (df out : DataFrame) :
  Resampler.resample rng df = Ok out -> Resampler.oversampled df out.
Proof.
  intros H. apply resample_ok_inv in H. cbv zeta in H.
  destruct H as (_ & _ & _ & _ & ->).
  set (n := Z.to_nat _).
  exists (map Resampler.content (choice rng n (rows df))). split.
  - cbn [concat_ignore_index rows loc].
    now rewrite reindex_from_content, map_app.
  - apply Forall_forall. intros x Hx.
    apply in_map_iff in Hx. destruct Hx as [r [<- Hr]].
    apply in_map.
    eapply Permutation_in; [apply (choice_without_replacement rng n)|].
    apply in_or_app. left. exact Hr.
Qed.




(** C2, as stated, fails: with one converted row among 22 the rate is 20/21,
    21 rows are drawn, and a draw that misses the converted row gives an
    output with the input's share, 1/22, not a larger one. *)
Lemma resample_share_not_always_larger :
  ~ (forall (rng : list nat) (df out : DataFrame) (rate : Q),
        Resampler.sample_rate df = Ok rate -> (rate <= 1)%Q ->
        Resampler.resample rng df = Ok out ->
        (Resampler.minority_share (rows df)
         < Resampler.minority_share (rows out))%Q).
Proof.
  intros H.
  pose (df := Examples.one_in 21).
  pose (rng := Examples.second_each_time 22).
  pose (out := match Resampler.resample rng df with
               | Ok o => o
               | Raise _ => df
               end).
  assert (E : Resampler.resample rng df = Ok out)
    by (vm_compute; reflexivity).
  assert (R : Resampler.sample_rate df = Ok (20 # 21))
    by (vm_compute; reflexivity).
  assert (L : (20 # 21 <= 1)%Q) by (vm_compute; discriminate).
  specialize (H rng df out (20 # 21) R L E).
  vm_compute in H. discriminate H.
Qed.

(** C2, amended: for every input frame with at least one converted row and
    a rate of at most 1, every output of the resampler has a share of
    converted rows that is at least the input's, lies between 1/22 and 2/21,
    and is strictly larger than the input's whenever the output's row count
    differs from the input's. *)
Theorem resample_share
  (rng : list nat) (df : DataFrame) (rate : Q) :
  Resampler.sample_rate df = Ok rate -> (rate <= 1)%Q ->
  (1 <= length (filter converted (rows df)))%nat ->
  exists out,
    Resampler.resample rng df = Ok out /\
    (Resampler.minority_share (rows df)
     <= Resampler.minority_share (rows out))%Q /\
    (1 # 22 <= Resampler.minority_share (rows out))%Q /\
    (Resampler.minority_share (rows out) <= 2 # 21)%Q /\
    (len out <> len df ->
     (Resampler.minority_share (rows df)
      < Resampler.minority_share (rows out))%Q).
Proof.
  intros Hrate Hle Hc.
  set (c := length (filter converted (rows df))) in *.
  set (t := length (rows df)).
  assert (Hct : (c <= t)%nat) by apply filter_length_le.
  rewrite sample_rate_unfold in Hrate. fold c t in Hrate.
  destruct (Nat.eqb (t - c) O) eqn:Em; [discriminate|].
  apply Nat.eqb_neq in Em. injection Hrate as <-.
  pose proof (rate_at_most_one_inv df Em Hle) as H20. fold c t in H20.
  pose proof (size_at_least df Em) as Hlow.
  pose proof (size_at_most df Em H20) as [Hup Hupt].
  fold c t in Hlow, Hup, Hupt.
  eexists. split; [apply (resample_ok_intro rng df Em H20)|].
  fold c t.
  set (n := round_half_even _) in *.
  set (drawn := choice rng (Z.to_nat n) (rows df)).
  assert (Hlen : length drawn = Z.to_nat n)
    by (apply choice_length; fold t; lia).
  pose proof (choice_count_le converted rng (Z.to_nat n) (rows df)) as Hk.
  pose proof (choice_count_le (fun r => negb (converted r)) rng
                (Z.to_nat n) (rows df)) as Hj.
  fold drawn in Hk, Hj. fold c in Hk.
  pose proof (filter_length converted drawn) as Hsplit.
  pose proof (filter_length converted (rows df)) as Hsplit'.
  fold c t in Hsplit'.
  set (k := length (filter converted drawn)) in *.
  set (j := length (filter (fun r => negb (converted r)) drawn)) in *.
  set (m := length (filter (fun r => negb (converted r)) (rows df))) in *.
  unfold Resampler.minority_share, len.
  cbn [rows concat_ignore_index loc].
  rewrite reindex_from_converted, reindex_from_length.
  rewrite filter_app, !length_app.
  assert (Hcc : length (filter converted (filter converted (rows df))) = c).
  { pose proof (filter_length converted (filter converted (rows df))) as F.
    assert (Z0 : length (filter (fun x => negb (converted x))
                           (filter converted (rows df))) = O).
    { clear. induction (rows df) as [|r l IH]; simpl; [reflexivity|].
      destruct (converted r) eqn:Er; simpl; [rewrite Er; simpl|]; exact IH. }
    fold c in F. lia. }
  rewrite Hcc. fold c t k. fold drawn. rewrite Hlen.
  change (1 # 22)%Q with (inject_Z (Z.of_nat 1) / inject_Z (Z.of_nat 22))%Q.
  change (2 # 21)%Q with (inject_Z (Z.of_nat 2) / inject_Z (Z.of_nat 21))%Q.
  assert (Hn : Z.to_nat n = (k + j)%nat) by lia.
  repeat split.
  - apply ratio_le; nia.
  - apply ratio_le; nia.
  - apply ratio_le; nia.
  - intros Hneq. apply ratio_lt; nia.
Qed.



Lemma resample_share_witness :
  exists out,
    Resampler.resample [] (Examples.one_in 40) = Ok out /\
    (Resampler.minority_share (rows (Examples.one_in 40))
     <= Resampler.minority_share (rows out))%Q /\
    (1 # 22 <= Resampler.minority_share (rows out))%Q /\
    (Resampler.minority_share (rows out) <= 2 # 21)%Q /\
    (len out <> len (Examples.one_in 40) ->
     (Resampler.minority_share (rows (Examples.one_in 40))
      < Resampler.minority_share (rows out))%Q).
Proof.
  apply (resample_share [] (Examples.one_in 40) (rate := 20 # 40)).
  - vm_compute. reflexivity.
  - vm_compute. discriminate.
  - vm_compute. lia.
Defined.

(** ** The splitter *)

Section FilterFacts.

Context {A : Type}.

Lemma filter_none (p : A -> bool) (l : list A) :
  (forall x, In x l -> p x = false) -> filter p l = [].
Proof.
  induction l as [|x l IH]; intros H; simpl; [reflexivity|].
  rewrite (H x (or_introl eq_refl)). apply IH.
  intros y Hy. apply H. right; exact Hy.
Qed.

Lemma filter_all (p : A -> bool) (l : list A) :
  (forall x, In x l -> p x = true) -> filter p l = l.
Proof.
  induction l as [|x l IH]; intros H; simpl; [reflexivity|].
  rewrite (H x (or_introl eq_refl)). f_equal. apply IH.
  intros y Hy. apply H. right; exact Hy.
Qed.

Lemma NoDup_app_apart (l1 l2 : list A) (x : A) :
  NoDup (l1 ++ l2) -> In x l1 -> ~ In x l2.
Proof.
  induction l1 as [|y l1 IH]; simpl; intros Hnd Hin; [contradiction|].
  inversion Hnd as [|? ? Hnotin Hnd']; subst.
  destruct Hin as [-> | Hin].
  - intros Hx. apply Hnotin, in_or_app. right; exact Hx.
  - apply IH; assumption.
Qed.

End FilterFacts.

Lemma listed_spec (i : nat) (ls : list nat) :
  existsb (Nat.eqb i) ls = true <-> In i ls.
Proof.
  rewrite existsb_exists. split.
  - intros [x [Hx E]]. apply Nat.eqb_eq in E. now subst.
  - intros H. exists i. split; [exact H | apply Nat.eqb_refl].
Qed.

(** Dropping a sample's labels from a frame with distinct labels leaves
    exactly the rows that were not drawn. *)
Lemma sample_then_drop (rng : list nat) (n : nat) (cols : list string)
  (l : list Row) :
  NoDup (labels l) ->
  Permutation
    (choice rng n l ++ rows (drop (labels (choice rng n l)) (mkFrame cols l)))
    l.
Proof.
  intros Hnd. cbn [drop rows].
  set (l' := shuffle rng l (length l)).
  assert (Hp : Permutation l' l) by apply shuffle_perm.
  assert (Hnd' : NoDup (labels l')).
  { eapply Permutation_NoDup; [|exact Hnd].
    apply Permutation_map, Permutation_sym, Hp. }
  unfold choice. fold l'.
  set (s := firstn n l'). set (u := skipn n l').
  assert (Hsu : l' = s ++ u) by (symmetry; apply firstn_skipn).
  set (keep := fun r : Row => negb (existsb (Nat.eqb (index r)) (labels s))).
  assert (Hkeep : filter keep l' = u).
  { rewrite Hsu, filter_app.
    rewrite (filter_none keep s), (filter_all keep u); [reflexivity | |].
    - intros r Hr. unfold keep.
      destruct (existsb _ _) eqn:E; [|reflexivity].
      apply listed_spec in E. exfalso.
      unfold labels in Hnd'. rewrite Hsu, map_app in Hnd'.
      apply (NoDup_app_apart _ _ (index r) Hnd' E).
      apply in_map, Hr.
    - intros r Hr. unfold keep.
      assert (E : existsb (Nat.eqb (index r)) (labels s) = true).
      { apply listed_spec. apply in_map, Hr. }
      now rewrite E. }
  eapply perm_trans; [|exact Hp].
  apply perm_trans with (s ++ u); [|rewrite <- Hsu; apply Permutation_refl].
  apply Permutation_app_head.
  rewrite <- Hkeep. apply filter_perm, Permutation_sym, Hp.
Qed.

(** A fraction between 0 and 1 is always served. *)
Lemma sample_fraction (rng : list nat) (frac : Q) (df : DataFrame) :
  (0 <= frac)%Q -> (frac <= 1)%Q ->
  exists n, (n <= len df)%nat /\
    sample rng frac df = Ok (mkFrame (columns df) (choice rng n (rows df))).
Proof.
  intros H0 H1. unfold sample.
  set (q := (frac * inject_Z (Z.of_nat (len df)))%Q).
  assert (Ht : (0 <= inject_Z (Z.of_nat (len df)))%Q).
  { change 0%Q with (inject_Z 0). rewrite <- Zle_Qle. lia. }
  assert (Hlo : (0 <= round_half_even q)%Z).
  { apply round_half_even_lower. change (inject_Z 0) with 0%Q.
    unfold q. apply Qmult_le_0_compat; assumption. }
  assert (Hhi : (round_half_even q <= Z.of_nat (len df))%Z).
  { apply round_half_even_upper. unfold q.
    rewrite <- (Qmult_1_l (inject_Z (Z.of_nat (len df)))) at 2.
    apply Qmult_le_compat_r; assumption. }
  destruct (_ <? 0)%Z eqn:E0; [apply Z.ltb_lt in E0; lia|].
  destruct (_ <? round_half_even q)%Z eqn:E1; [apply Z.ltb_lt in E1; lia|].
  exists (Z.to_nat (round_half_even q)). split; [lia | reflexivity].
Qed.

Lemma drop_keeps_distinct (ls : list nat) (df : DataFrame) :
  NoDup (labels (rows df)) -> NoDup (labels (rows (drop ls df))).
Proof.
  cbn [drop rows]. induction (rows df) as [|r l IH]; simpl; intros H.
  - constructor.
  - inversion H as [|? ? Hnotin Hnd]; subst.
    destruct (negb _); [|apply IH, Hnd].
    simpl. constructor; [|apply IH, Hnd].
    intros Hin. apply Hnotin. unfold labels in Hin |- *.
    apply in_map_iff in Hin. destruct Hin as [x [Ex Hx]].
    apply filter_In in Hx. rewrite <- Ex. apply in_map, Hx.
Qed.

(** C3: for every frame with a unique row index the train, validation and
    test subsets of cells 26, 33 and 39 (and the train and validation subsets
    of cell 6) are produced, together they hold every row of the input
    exactly once, so each of their rows is a row of the input, and no index
    label occurs in two of them or twice in one. *)
Theorem split_is_partition (rng1 rng2 : list nat) (df : DataFrame) :
  NoDup (labels (rows df)) ->
  (exists train validation,
      Splitter.split_train_validation rng1 df = Ok (train, validation) /\
      Permutation (rows train ++ rows validation) (rows df) /\
      incl (rows train ++ rows validation) (rows df) /\
      NoDup (labels (rows train ++ rows validation)))
  /\
  (exists train validation test,
      Splitter.split_train_validation_test rng1 rng2 df
      = Ok (train, validation, test) /\
      Permutation (rows train ++ rows validation ++ rows test) (rows df) /\
      incl (rows train ++ rows validation ++ rows test) (rows df) /\
      NoDup (labels (rows train ++ rows validation ++ rows test))).
Proof.
  intros Hnd. destruct df as [cols l]. cbn [rows] in *.
  assert (Hfin : forall parts : list Row,
             Permutation parts l ->
             Permutation parts l /\ incl parts l /\ NoDup (labels parts)).
  { intros parts Hp. split; [exact Hp|]. split.
    - intros r Hr. eapply Permutation_in; eassumption.
    - eapply Permutation_NoDup; [|exact Hnd].
      apply Permutation_map, Permutation_sym, Hp. }
  split.
  - unfold Splitter.split_train_validation.
    destruct (sample_fraction rng1 (frac := 9 # 10) (mkFrame cols l))
      as [n [_ ->]]; [discriminate | discriminate |].
    cbn [bind columns rows]. eexists _, _. split; [reflexivity|].
    apply Hfin. cbn [rows]. apply sample_then_drop, Hnd.
  - unfold Splitter.split_train_validation_test.
    destruct (sample_fraction rng1 (frac := 7 # 10) (mkFrame cols l))
      as [n [_ ->]]; [discriminate | discriminate |].
    cbn [bind columns rows].
    set (rest := drop (labels (choice rng1 n l)) (mkFrame cols l)).
    destruct (sample_fraction rng2 (frac := 66 # 100) rest)
      as [k [_ ->]]; [discriminate | discriminate |].
    cbn [bind columns rows]. eexists _, _, _. split; [reflexivity|].
    apply Hfin. cbn [rows].
    eapply perm_trans; [|apply (@sample_then_drop rng1 n cols l Hnd)].
    apply Permutation_app_head. fold rest.
    destruct rest as [cols' l'] eqn:Erest. cbn [rows columns].
    apply sample_then_drop.
    change l' with (rows (mkFrame cols' l')). rewrite <- Erest.
    apply drop_keeps_distinct. exact Hnd.
Qed.

Lemma split_is_partition_witness :
  (exists train validation,
      Splitter.split_train_validation [2; 0]%nat (Examples.one_in 3)
      = Ok (train, validation) /\
      Permutation (rows train ++ rows validation)
                  (rows (Examples.one_in 3)) /\
      incl (rows train ++ rows validation) (rows (Examples.one_in 3)) /\
      NoDup (labels (rows train ++ rows validation)))
  /\
  (exists train validation test,
      Splitter.split_train_validation_test [2; 0]%nat [1]%nat
        (Examples.one_in 3)
      = Ok (train, validation, test) /\
      Permutation (rows train ++ rows validation ++ rows test)
                  (rows (Examples.one_in 3)) /\
      incl (rows train ++ rows validation ++ rows test)
           (rows (Examples.one_in 3)) /\
      NoDup (labels (rows train ++ rows validation ++ rows test))).
Proof.
  apply (split_is_partition [2; 0]%nat [1]%nat (Examples.one_in 3)).
  simpl. repeat constructor; simpl; lia.
Defined.

(** ** The evaluator *)

Section EvaluatorFacts.

Import Evaluator.

Variable ep : Endpoint.

Lemma predict_loop (data : list (list Q)) :
  forall (acc : list Q) (log : Log),
    fold_left
      (fun (a : list Q * Log) (array : list Q) =>
         let (score, log') := invoke ep array (snd a) in
         (fst a ++ [score], log'))
      data (acc, log)
    = (acc ++ map ep data, log ++ data).
Proof.
  induction data as [|x data IH]; intros acc log; simpl.
  - now rewrite !app_nil_r.
  - rewrite IH, <- !app_assoc. reflexivity.
Qed.

(** One request per row, in row order, and the scores in the same order. *)
Lemma predict_spec (data : list (list Q)) (log : Log) :
  predict ep data log = (map ep data, log ++ data).
Proof. unfold predict. now rewrite predict_loop. Qed.

Lemma error_column_spec (test_data : list Row) :
  error_column (map ep (as_matrix test_data)) test_data
  = map (fun r => Qabs (ep (features r) - conversion_rate r)) test_data.
Proof.
  unfold error_column, as_matrix.
  induction test_data as [|r l IH]; [reflexivity|].
  cbn [map combine fst snd]. f_equal. exact IH.
Qed.

Lemma total_from (xs : list Q) :
  forall a : Q, (fold_left Qplus xs a == a + fold_right Qplus 0 xs)%Q.
Proof.
  induction xs as [|x xs IH]; intros a; simpl.
  - lra.
  - rewrite IH. lra.
Qed.

Lemma total_spec (xs : list Q) : (total xs == fold_right Qplus 0 xs)%Q.
Proof. unfold total. rewrite total_from. lra. Qed.

End EvaluatorFacts.

(** C4: for every endpoint (a function of the feature row), every non-empty
    test set and every earlier log, the printed "mean average error" is the
    arithmetic mean over the test rows of the absolute difference between
    the endpoint's prediction for the row's features and the row's
    [conversion_rate]; the endpoint is asked once per row, in row order. *)
Theorem evaluate_is_mean_absolute_error
  (ep : Evaluator.Endpoint) (test_data : list Row) (log : Evaluator.Log) :
  test_data <> [] ->
  exists (printed : Q) (nonzero : option Q),
    Evaluator.evaluate ep test_data log
    = (Some printed, nonzero, log ++ map features test_data) /\
    (printed == Evaluator.mean_absolute_error ep test_data)%Q.
Proof.
  intros Hne. unfold Evaluator.evaluate.
  rewrite predict_spec, error_column_spec.
  set (errors := map _ test_data).
  destruct test_data as [|r l]; [contradiction|].
  unfold Evaluator.mean at 1.
  assert (Herr : errors <> []) by discriminate.
  destruct errors as [|e errors'] eqn:E; [contradiction|].
  eexists _, _. split; [reflexivity|].
  unfold Evaluator.mean_absolute_error. fold (map features).
  rewrite total_spec.
  assert (Hl : length (e :: errors') = length (r :: l)).
  { rewrite <- E. unfold errors. apply length_map. }
  rewrite Hl.
  change (map (fun r0 : Row => Qabs (ep (features r0) - conversion_rate r0))
              (r :: l)) with errors.
  rewrite E. reflexivity.
Qed.

Lemma evaluate_is_mean_absolute_error_witness :
  exists (printed : Q) (nonzero : option Q),
    Evaluator.evaluate (fun x => hd 0%Q x) (rows (Examples.one_in 1)) []
    = (Some printed, nonzero,
       [] ++ map features (rows (Examples.one_in 1))) /\
    (printed
     == Evaluator.mean_absolute_error (fun x => hd 0%Q x)
          (rows (Examples.one_in 1)))%Q.
Proof.
  apply (@evaluate_is_mean_absolute_error
           (fun x => hd 0%Q x) (rows (Examples.one_in 1)) []).
  discriminate.
Defined.

(** ** The poll loop *)

Section TuningFacts.

Import Tuning.

Variable svc : Service.

Lemma completed_spec (status : string) :
  completed status = true <-> status = "Completed"%string.
Proof. apply String.eqb_eq. Qed.

Lemma describe_consistent (k : nat) :
  still_running_before svc k -> consistent svc (describe svc k).
Proof.
  intros H. unfold describe.
  destruct (svc k) as [status|e] eqn:E; simpl; eauto.
Qed.

Lemma reachable_consistent (s : state) : reachable svc s -> consistent svc s.
Proof.
  induction 1 as [|s s' _ IH Hstep].
  - apply describe_consistent. intros i Hi. lia.
  - destruct Hstep as [k status Hc | k status Hc]; destruct IH as [E Hb].
    + apply completed_spec in Hc. subst status. split; assumption.
    + apply describe_consistent. intros i Hi.
      destruct (Nat.eq_dec i k) as [-> | Hne]; [eauto|].
      apply Hb. lia.
Qed.

Lemma run_reachable (n : nat) : reachable svc (run svc n).
Proof.
  induction n as [|n IH]; simpl; [constructor|].
  destruct (run svc n) as [k status| |] eqn:E; simpl; try exact IH.
  destruct (completed status) eqn:Hc.
  - eapply reach_step; [exact IH | now constructor].
  - eapply reach_step; [exact IH | now constructor].
Qed.

Lemma run_waits (k : nat) :
  still_running_before svc k -> run svc k = describe svc k.
Proof.
  induction k as [|k IH]; intros H; simpl; [reflexivity|].
  rewrite IH by (intros i Hi; apply H; lia).
  destruct (H k (Nat.lt_succ_diag_r k)) as [status [E Hc]].
  unfold describe at 1. rewrite E. simpl. now rewrite Hc.
Qed.

Lemma run_stays_faulted (k n : nat) (e : exn) :
  run svc k = Faulted e -> (k <= n)%nat -> run svc n = Faulted e.
Proof.
  intros H Hle. induction Hle as [|n _ IH]; [exact H|].
  simpl. now rewrite IH.
Qed.

End TuningFacts.

(** C7: the driver reads the best job's tuned hyperparameters only from an
    answer whose status is ['Completed'], every earlier answer having been a
    status other than ['Completed']; and when poll [k] is the first to
    answer ['Completed'], the loop leaves the wait at that poll, after [k]
    turns. *)
Theorem poll_loop_exits_at_first_completed (svc : Tuning.Service) :
  (forall j, Tuning.reachable svc (Tuning.ReadBest j) ->
     svc j = Ok "Completed"%string /\
     forall i, (i < j)%nat ->
       exists status, svc i = Ok status /\ status <> "Completed"%string)
  /\
  (forall k, svc k = Ok "Completed"%string ->
     (forall i, (i < k)%nat ->
        exists status, svc i = Ok status /\ status <> "Completed"%string) ->
     Tuning.run svc k = Tuning.Waiting k "Completed" /\
     Tuning.run svc (S k) = Tuning.ReadBest k /\
     Tuning.reachable svc (Tuning.ReadBest k)).
Proof.
  split.
  - intros j Hj. apply reachable_consistent in Hj. destruct Hj as [E Hb].
    split; [exact E|]. intros i Hi.
    destruct (Hb i Hi) as [status [Es Hc]]. exists status.
    split; [exact Es|]. intros ->. discriminate Hc.
  - intros k Ek Hb.
    assert (Hb' : Tuning.still_running_before svc k).
    { intros i Hi. destruct (Hb i Hi) as [status [Es Hne]].
      exists status. split; [exact Es|].
      destruct (Tuning.completed status) eqn:Hc; [|reflexivity].
      apply completed_spec in Hc. contradiction. }
    assert (Hrun : Tuning.run svc k = Tuning.Waiting k "Completed").
    { rewrite (run_waits Hb'). unfold Tuning.describe. now rewrite Ek. }
    assert (Hnext : Tuning.run svc (S k) = Tuning.ReadBest k).
    { simpl. rewrite Hrun. reflexivity. }
    repeat split; try assumption.
    rewrite <- Hnext. apply run_reachable.
Qed.

Lemma poll_loop_exits_at_first_completed_witness :
  Tuning.run
    (fun k => if Nat.ltb k 2 then Ok "InProgress"%string
              else Ok "Completed"%string) 2
  = Tuning.Waiting 2 "Completed" /\
  Tuning.run
    (fun k => if Nat.ltb k 2 then Ok "InProgress"%string
              else Ok "Completed"%string) 3
  = Tuning.ReadBest 2 /\
  Tuning.reachable
    (fun k => if Nat.ltb k 2 then Ok "InProgress"%string
              else Ok "Completed"%string)
    (Tuning.ReadBest 2).
Proof.
  apply (proj2 (poll_loop_exits_at_first_completed
                  (fun k => if Nat.ltb k 2 then Ok "InProgress"%string
                            else Ok "Completed"%string)) 2%nat).
  - reflexivity.
  - intros i Hi. exists "InProgress"%string.
    destruct i as [|[|i]]; [split; [reflexivity|discriminate].. | lia].
Defined.

(** C6, as stated, fails: a job whose status is ['Failed'] at every poll
    never makes the workflow fault. *)
Lemma failed_status_is_no_fault :
  ~ (forall svc : Tuning.Service,
        (forall j, exists status,
            svc j = Ok status /\ status <> "Completed"%string) ->
        (exists k, svc k = Ok "Failed"%string \/ svc k = Ok "Stopped"%string) ->
        exists n e, Tuning.run svc n = Tuning.Faulted e).
Proof.
  intros H.
  destruct (H Tuning.always_failed) as [n [e Hn]].
  - intros j. exists "Failed"%string. split; [reflexivity | discriminate].
  - exists O. left. reflexivity.
  - assert (W : Tuning.run Tuning.always_failed n
                = Tuning.Waiting n "Failed").
    { clear. induction n as [|n IH]; simpl; [reflexivity|].
      rewrite IH. reflexivity. }
    rewrite W in Hn. discriminate Hn.
Qed.

(** C6, amended: an exception raised by a call to the remote service is not
    handled and ends the workflow with that fault; a failure status is not a
    fault: as long as every answer is a status other than ['Completed'], be
    it ['Failed'] or ['Stopped'], the loop neither exits nor faults, however
    many turns it is given. *)
Theorem poll_loop_faults_only_on_exceptions (svc : Tuning.Service) :
  ((forall j, exists status,
       svc j = Ok status /\ status <> "Completed"%string) ->
   forall n, exists status,
     Tuning.run svc n = Tuning.Waiting n status /\
     Tuning.terminal (Tuning.run svc n) = false)
  /\
  (forall k e,
     svc k = Raise e ->
     (forall i, (i < k)%nat ->
        exists status, svc i = Ok status /\ status <> "Completed"%string) ->
     forall n, (k <= n)%nat -> Tuning.run svc n = Tuning.Faulted e).
Proof.
  assert (Hconv : forall k,
             (forall i, (i < k)%nat ->
                exists status,
                  svc i = Ok status /\ status <> "Completed"%string) ->
             Tuning.still_running_before svc k).
  { intros k Hb i Hi. destruct (Hb i Hi) as [status [Es Hne]].
    exists status. split; [exact Es|].
    destruct (Tuning.completed status) eqn:Hc; [|reflexivity].
    apply completed_spec in Hc. contradiction. }
  split.
  - intros Hall n.
    rewrite (run_waits (k := n)) by (apply Hconv; intros i _; apply Hall).
    destruct (Hall n) as [status [Es _]].
    exists status. unfold Tuning.describe. rewrite Es. split; reflexivity.
  - intros k e Ek Hb n Hle.
    apply (run_stays_faulted svc (k := k)); [|exact Hle].
    rewrite (run_waits (Hconv k Hb)). unfold Tuning.describe.
    now rewrite Ek.
Qed.

Lemma poll_loop_faults_only_on_exceptions_witness :
  (exists status,
      Tuning.run Tuning.always_failed 5 = Tuning.Waiting 5 status /\
      Tuning.terminal (Tuning.run Tuning.always_failed 5) = false)
  /\
  Tuning.run
    (fun k => if Nat.ltb k 1 then Ok "Failed"%string else Raise RemoteFault) 4
  = Tuning.Faulted RemoteFault.
Proof.
  split.
  - apply (proj1 (poll_loop_faults_only_on_exceptions Tuning.always_failed)).
    intros j. exists "Failed"%string. split; [reflexivity | discriminate].
  - apply (proj2 (poll_loop_faults_only_on_exceptions
                    (fun k => if Nat.ltb k 1 then Ok "Failed"%string
                              else Raise RemoteFault)) 1%nat RemoteFault).
    + reflexivity.
    + intros i Hi. exists "Failed"%string.
      destruct i as [|i]; [split; [reflexivity|discriminate] | lia].
    + lia.
Defined.

(** ** The model inspector *)

Lemma startswith_before_dash (col : string) :
  Inspector.startswith col (Inspector.before_dash col) = true.
Proof.
  unfold Inspector.startswith.
  induction col as [|ch rest IH]; simpl; [reflexivity|].
  destruct (Ascii.eqb ch "-"%char); simpl; [reflexivity|].
  destruct (ascii_dec ch ch) as [_|N]; [exact IH | contradiction].
Qed.

(** A feature's weight is always counted in the group named by the part of
    its name before the first ['-']. *)
Lemma counted_in_own_group (cols : list string) (col : string) :
  In col (Inspector.feature_columns cols) ->
  In (Inspector.before_dash col) (Inspector.groups_of cols col).
Proof.
  intros H. unfold Inspector.groups_of. apply filter_In. split.
  - unfold Inspector.top_level_features. apply nodup_In.
    apply in_map, H.
  - apply startswith_before_dash.
Qed.

(** C5 at the failing input: with the columns [platform-ios] and
    [platform_device_make-apple], weights 1 and 3, the second feature is
    counted in two groups, and the statistics of group [platform] are those
    of both weights (mean 2, minimum 1, maximum 3) instead of the single
    weight 1. *)
Theorem inspector_counts_weight_in_two_groups :
  Inspector.groups_of Examples.cols "platform_device_make-apple"
  = ["platform"; "platform_device_make"]%string
  /\
  Inspector.top_level_weights Examples.cols [1; 3]%Q
  = Ok [("platform"%string,
         Inspector.mkStats (Some (4 # 2)) (Some (4 # 2))
                           (Some 1%Q) (Some 3%Q));
        ("platform_device_make"%string,
         Inspector.mkStats (Some 3%Q) (Some 3%Q) (Some 3%Q) (Some 3%Q))].
Proof. split; vm_compute; reflexivity. Qed.

(** ** The descriptor file *)

Lemma list_remove_spec (x : string) (l : list string) :
  In x l ->
  exists pre post,
    l = pre ++ x :: post /\ ~ In x pre /\
    Descriptor.list_remove x l = Ok (pre ++ post).
Proof.
  induction l as [|y t IH]; intros H; [contradiction|].
  simpl. destruct (String.eqb y x) eqn:E.
  - apply String.eqb_eq in E. subst y.
    exists [], t. repeat split. intros [].
  - apply String.eqb_neq in E.
    destruct H as [-> | H]; [contradiction|].
    destruct (IH H) as [pre [post [-> [Hpre ->]]]].
    exists (y :: pre), post. repeat split.
    intros [-> | Hin]; [contradiction | exact (Hpre Hin)].
Qed.

(** C8: a run whose sampled dataset has the label column reaches the end,
    and the JSON object it writes has exactly two members: ['features'], the
    column names of the sampled dataset with ['conversion_rate'] taken out,
    and ['endpoint_name'], the name of the endpoint that the deploy call of
    the last training cell created. *)
Theorem descriptor_records_features_and_endpoint
  (timestamp : string) (sampled_data : DataFrame) (cloud : Descriptor.Cloud) :
  In "conversion_rate"%string (columns sampled_data) ->
  exists out pre post,
    Descriptor.final_cells timestamp sampled_data cloud = Ok out /\
    columns sampled_data = pre ++ "conversion_rate"%string :: post /\
    ~ In "conversion_rate"%string pre /\
    Descriptor.written out
    = Descriptor.JObject
        [("features"%string,
          Descriptor.JArray (map Descriptor.JString (pre ++ post)));
         ("endpoint_name"%string,
          Descriptor.JString (Descriptor.predictor_endpoint out))] /\
    Descriptor.endpoints (Descriptor.cloud_after out)
    = Descriptor.endpoints cloud ++ [Descriptor.predictor_endpoint out].
Proof.
  intros H.
  destruct (list_remove_spec _ _ H) as [pre [post [Ecols [Hpre Erem]]]].
  unfold Descriptor.final_cells. cbn [Descriptor.fit Descriptor.deploy
    Descriptor.latest_training_job bind fst snd].
  rewrite Erem. cbn [bind].
  eexists _, pre, post. split; [reflexivity|].
  repeat split; assumption.
Qed.

Lemma descriptor_records_features_and_endpoint_witness :
  exists out pre post,
    Descriptor.final_cells "1546300800" (Examples.one_in 2)
      (Descriptor.mkCloud [] []) = Ok out /\
    columns (Examples.one_in 2) = pre ++ "conversion_rate"%string :: post /\
    ~ In "conversion_rate"%string pre /\
    Descriptor.written out
    = Descriptor.JObject
        [("features"%string,
          Descriptor.JArray (map Descriptor.JString (pre ++ post)));
         ("endpoint_name"%string,
          Descriptor.JString (Descriptor.predictor_endpoint out))] /\
    Descriptor.endpoints (Descriptor.cloud_after out)
    = Descriptor.endpoints (Descriptor.mkCloud [] [])
      ++ [Descriptor.predictor_endpoint out].
Proof.
  apply (descriptor_records_features_and_endpoint
           "1546300800" (Examples.one_in 2) (Descriptor.mkCloud [] [])).
  simpl. left. reflexivity.
Defined.

(** ** The unbound name of the model-inspection cell *)

(** C9: no statement of the notebook binds [jobname]; the cells before the
    model-inspection cell run through on a fresh kernel and leave [jobname]
    unbound; and from every kernel in which [prefix] is bound and [jobname] is
    not, that one included, the model-inspection cell stops with
    [NameError: jobname] having done nothing to the outside world, so before
    any download. *)
Theorem inspect_cell_raises_name_error :
  ~ In "jobname"%string (Notebook.bound_somewhere Notebook.notebook)
  /\
  (exists k,
      Notebook.exec (concat Notebook.cells_before_inspect)
                    Notebook.fresh_kernel = (k, None) /\
      Notebook.bound k "prefix" = true /\
      Notebook.bound k "jobname" = false /\
      ~ In Notebook.Download (Notebook.log k))
  /\
  (forall k,
      Notebook.bound k "prefix" = true ->
      Notebook.bound k "jobname" = false ->
      exists k',
        Notebook.exec Notebook.cell_inspect k
        = (k', Some (NameError "jobname")) /\
        Notebook.log k' = Notebook.log k).
Proof.
  split; [|split].
  - intros H. vm_compute in H.
    repeat (destruct H as [H | H]; [discriminate H|]). exact H.
  - eexists. split; [vm_compute; reflexivity|].
    split; [reflexivity|]. split; [reflexivity|].
    intros H. vm_compute in H.
    repeat (destruct H as [H | H]; [discriminate H|]). exact H.
  - intros [ns lg] Hp Hj. unfold Notebook.bound in Hp, Hj.
    cbn [Notebook.namespace] in Hp, Hj.
    exists (Notebook.mkKernel ("boto3" :: "mx" :: "os" :: ns)%string lg).
    split; [|reflexivity].
    unfold Notebook.cell_inspect. simpl. rewrite !app_nil_r.
    set (K := Notebook.mkKernel _ lg).
    assert (E : Notebook.exec_stmt
                  (Notebook.assign ["key"%string]
                                   ["prefix"%string; "jobname"%string]) K
                = (K, Some (NameError "jobname"))).
    { assert (Bp : Notebook.bound K "prefix" = true).
      { unfold Notebook.bound, K. cbn [Notebook.namespace existsb].
        rewrite Hp. now rewrite !orb_true_r. }
      assert (Bj : Notebook.bound K "jobname" = false).
      { unfold Notebook.bound, K. cbn [Notebook.namespace existsb].
        rewrite Hj. reflexivity. }
      unfold Notebook.exec_stmt, Notebook.assign.
      cbn [Notebook.reads find]. rewrite Bp. cbn [negb].
      rewrite Bj. reflexivity. }
    rewrite E. reflexivity.
Qed.

Lemma inspect_cell_raises_name_error_witness :
  exists k',
    Notebook.exec Notebook.cell_inspect
      (fst (Notebook.exec (concat Notebook.cells_before_inspect)
                          Notebook.fresh_kernel))
    = (k', Some (NameError "jobname")) /\
    Notebook.log k'
    = Notebook.log
        (fst (Notebook.exec (concat Notebook.cells_before_inspect)
                            Notebook.fresh_kernel)).
Proof.
  apply (proj2 (proj2 inspect_cell_raises_name_error)
           (fst (Notebook.exec (concat Notebook.cells_before_inspect)
                               Notebook.fresh_kernel))).
  - vm_compute. reflexivity.
  - vm_compute. reflexivity.
Defined.

(** * Further properties of the cells *)

(** ** The resampler: outcomes, sizes and counts *)

Lemma round_half_even_near (q : Q) :
  (Qabs (inject_Z (round_half_even q) - q) <= 1 # 2)%Q.
Proof.
  pose proof (Qfloor_le q) as Hlo. pose proof (Qlt_floor q) as Hhi.
  rewrite inject_Z_plus in Hhi. change (inject_Z 1) with 1%Q in Hhi.
  unfold round_half_even.
  destruct (q - inject_Z (Qfloor q) ?= 1 # 2)%Q eqn:E.
  - apply Qeq_alt in E.
    destruct (Z.even (Qfloor q)).
    + apply Qabs_Qle_condition. split; lra.
    + rewrite inject_Z_plus. change (inject_Z 1) with 1%Q.
      apply Qabs_Qle_condition. split; lra.
  - apply Qlt_alt in E. apply Qabs_Qle_condition. split; lra.
  - apply Qgt_alt in E. rewrite inject_Z_plus. change (inject_Z 1) with 1%Q.
    apply Qabs_Qle_condition. split; lra.
Qed.




(** X1: the resampling cell raises [ZeroDivisionError] exactly when no row
    is unconverted (the empty frame included), and yields a dataset exactly
    when some row is unconverted and [20*C <= T - C]. *)
Theorem resample_outcome (rng : list nat) (df : DataFrame) :
  let c := length (filter converted (rows df)) in
  let t := len df in
  (Resampler.resample rng df = Raise ZeroDivisionError <-> t = c) /\
  ((exists out, Resampler.resample rng df = Ok out)
   <-> (c < t)%nat /\ (20 * c <= t - c)%nat).
Proof.
  intros c t. unfold len in t.
  assert (Hct : (c <= t)%nat) by apply filter_length_le.
  split; split.
  - intros H. rewrite resample_unfold in H. fold c t in H.
    destruct (Nat.eqb (t - c) O) eqn:Em.
    + apply Nat.eqb_eq in Em. lia.
    + cbv zeta in H.
      destruct (_ <? 0)%Z; [discriminate|].
      destruct (_ <? _)%Z; discriminate.
  - intros H. rewrite resample_unfold. fold c t.
    replace (t - c)%nat with O by lia. reflexivity.
  - intros [out H]. apply resample_ok_inv in H. cbv zeta in H.
    fold c t in H. destruct H as (Hm & Hle & _). lia.
  - intros [Hlt Hle]. eexists.
    apply (resample_ok_intro rng df); fold c t; lia.
Qed.

(** X2: a dataset produced by the resampler has between [21*C] and [22*C]
    rows and at most [C + T]; the number of rows added to the [C] converted
    ones is within one half of [sample_rate * T]. *)
Theorem resample_size (rng : list nat) (df out : DataFrame) :
  Resampler.resample rng df = Ok out ->
  let c := length (filter converted (rows df)) in
  (21 * c <= len out)%nat /\ (len out <= 22 * c)%nat /\
  (len out <= c + len df)%nat /\
  exists rate,
    Resampler.sample_rate df = Ok rate /\
    (Qabs (inject_Z (Z.of_nat (len out - c))
           - rate * inject_Z (Z.of_nat (len df))) <= 1 # 2)%Q.
Proof.
  intros H c. apply resample_ok_inv in H. cbv zeta in H. fold c in H.
  destruct H as (Hm & Hle & Hn & Hrate & ->).
  pose proof (size_at_least df Hm) as Hlow.
  pose proof (size_at_most df Hm Hle) as [Hup _].
  fold c in Hlow, Hup.
  set (n := round_half_even _) in *.
  assert (Hlen : len (concat_ignore_index (loc converted df)
                        (mkFrame (columns df)
                                 (choice rng (Z.to_nat n) (rows df))))
                 = (c + Z.to_nat n)%nat).
  { unfold len. cbn [concat_ignore_index rows loc].
    rewrite reindex_from_length, length_app, choice_length by lia.
    reflexivity. }
  rewrite Hlen. unfold len at 1.
  repeat split; try lia.
  eexists. split; [exact Hrate|].
  replace (c + Z.to_nat n - c)%nat with (Z.to_nat n) by lia.
  rewrite Z2Nat.id by lia. apply round_half_even_near.
Qed.

Lemma resample_size_witness :
  (21 * 1 <= 22)%nat /\ (22 <= 22 * 1)%nat /\
  (22 <= 1 + len (Examples.one_in 20))%nat /\
  exists rate,
    Resampler.sample_rate (Examples.one_in 20) = Ok rate /\
    (Qabs (inject_Z (Z.of_nat (22 - 1))
           - rate * inject_Z (Z.of_nat (len (Examples.one_in 20))))
     <= 1 # 2)%Q.
Proof.
  apply (@resample_size [] (Examples.one_in 20)
           (concat_ignore_index (loc converted (Examples.one_in 20))
                                (Examples.one_in 20))).
  vm_compute. reflexivity.
Defined.

(** X3: on a non-empty frame without any converted row the resampler does
    not fail: it returns a dataset with the input's columns and no row. *)
Theorem resample_without_converted (rng : list nat) (df : DataFrame) :
  filter converted (rows df) = [] -> rows df <> [] ->
  Resampler.resample rng df = Ok (mkFrame (columns df) []).
Proof.
  intros Hc Hne.
  assert (Ht : (length (rows df) <> 0)%nat).
  { destruct (rows df); [contradiction | simpl; lia]. }
  pose proof (resample_ok_intro rng df) as H. cbv zeta in H.
  pose proof (size_at_most df) as Hup.
  pose proof (size_at_least df) as Hlow.
  rewrite Hc in H, Hup, Hlow. cbn [length] in H, Hup, Hlow.
  rewrite Nat.sub_0_r in H, Hup, Hlow.
  rewrite H by lia.
  destruct (Hup Ht ltac:(lia)) as [Hn _]. specialize (Hlow Ht).
  set (n := round_half_even _) in *.
  replace n with 0%Z by lia.
  unfold concat_ignore_index, loc, choice. cbn [rows columns firstn Z.to_nat].
  rewrite Hc. reflexivity.
Qed.

Lemma resample_without_converted_witness :
  Resampler.resample [3; 1]%nat
    (mkFrame Examples.cols [Examples.miss 0; Examples.miss 1])
  = Ok (mkFrame Examples.cols []).
Proof.
  apply (resample_without_converted [3; 1]%nat
           (mkFrame Examples.cols [Examples.miss 0; Examples.miss 1])).
  - reflexivity.
  - discriminate.
Defined.



(** ** The splitter: composition, label sharing and small inputs *)

Lemma round_half_even_below (z : Z) (q : Q) :
  (q < inject_Z z + (1 # 2))%Q -> (round_half_even q <= z)%Z.
Proof.
  intros H.
  assert (Hf : (Qfloor q <= z)%Z).
  { pose proof (Qfloor_le q) as Hlo.
    assert (Hlt : (inject_Z (Qfloor q) < inject_Z (z + 1))%Q).
    { rewrite inject_Z_plus. change (inject_Z 1) with 1%Q. lra. }
    rewrite <- Zlt_Qlt in Hlt. lia. }
  destruct (Z.eq_dec (Qfloor q) z) as [E|E].
  - unfold round_half_even. rewrite E.
    assert (Hlt : (q - inject_Z z < 1 # 2)%Q) by lra.
    rewrite Qlt_alt in Hlt. rewrite Hlt. lia.
  - pose proof (round_half_even_bounds q). lia.
Qed.

Lemma drop_excludes (ls : list nat) (df : DataFrame) (r : Row) :
  In r (rows (drop ls df)) -> In r (rows df) /\ ~ In (index r) ls.
Proof.
  cbn [drop rows]. intros H. apply filter_In in H. destruct H as [Hin Hk].
  split; [exact Hin|]. intros Hl. apply listed_spec in Hl.
  rewrite Hl in Hk. discriminate.
Qed.

Lemma choice_incl (rng : list nat) (n : nat) (l : list Row) (r : Row) :
  In r (choice rng n l) -> In r l.
Proof.
  intros H. eapply Permutation_in; [apply (choice_without_replacement rng n)|].
  apply in_or_app. left. exact H.
Qed.

(** Whatever the labels, a sample and what is left after dropping its labels
    never hold more rows than the frame. *)
Lemma sample_then_drop_length (rng : list nat) (n : nat) (cols : list string)
  (l : list Row) :
  (length (choice rng n l)
   + length (rows (drop (labels (choice rng n l)) (mkFrame cols l)))
   <= length l)%nat.
Proof.
  cbn [drop rows].
  set (s := choice rng n l).
  set (u := skipn n (shuffle rng l (length l))).
  assert (Hp : Permutation (s ++ u) l) by apply choice_without_replacement.
  set (keep := fun r : Row => negb (existsb (Nat.eqb (index r)) (labels s))).
  rewrite <- (filter_length_perm keep Hp), filter_app, length_app.
  rewrite (filter_none keep s).
  - rewrite <- (Permutation_length Hp), length_app.
    pose proof (filter_length_le keep u). simpl. lia.
  - intros r Hr. unfold keep.
    assert (E : existsb (Nat.eqb (index r)) (labels s) = true).
    { apply listed_spec. apply in_map, Hr. }
    now rewrite E.
Qed.

(** X5: whatever the index of the input frame, a dataset produced by the
    resampler is split into subsets that together hold each of its rows
    exactly once, under distinct labels: by cell 6 into train and validation,
    by cells 26, 33 and 39 into train, validation and test. *)
Theorem resample_then_split
  (rng rng1 rng2 : list nat) (df sampled_data : DataFrame) :
  Resampler.resample rng df = Ok sampled_data ->
  (exists train validation,
      Splitter.split_train_validation rng1 sampled_data
      = Ok (train, validation) /\
      Permutation (rows train ++ rows validation) (rows sampled_data) /\
      NoDup (labels (rows train ++ rows validation)))
  /\
  (exists train validation test,
      Splitter.split_train_validation_test rng1 rng2 sampled_data
      = Ok (train, validation, test) /\
      Permutation (rows train ++ rows validation ++ rows test)
                  (rows sampled_data) /\
      NoDup (labels (rows train ++ rows validation ++ rows test))).
Proof.
  intros H. apply resample_unique_index in H.
  destruct sampled_data as [cols l]. cbn [rows] in *.
  assert (Hfin : forall parts : list Row,
             Permutation parts l ->
             Permutation parts l /\ NoDup (labels parts)).
  { intros parts Hp. split; [exact Hp|].
    eapply Permutation_NoDup; [|exact H].
    apply Permutation_map, Permutation_sym, Hp. }
  split.
  - unfold Splitter.split_train_validation.
    destruct (sample_fraction rng1 (frac := 9 # 10) (mkFrame cols l))
      as [n [_ ->]]; [discriminate | discriminate |].
    cbn [bind columns rows]. eexists _, _. split; [reflexivity|].
    apply Hfin. cbn [rows]. apply sample_then_drop, H.
  - unfold Splitter.split_train_validation_test.
    destruct (sample_fraction rng1 (frac := 7 # 10) (mkFrame cols l))
      as [n [_ ->]]; [discriminate | discriminate |].
    cbn [bind columns rows].
    set (rest := drop (labels (choice rng1 n l)) (mkFrame cols l)).
    destruct (sample_fraction rng2 (frac := 66 # 100) rest)
      as [k [_ ->]]; [discriminate | discriminate |].
    cbn [bind columns rows]. eexists _, _, _. split; [reflexivity|].
    apply Hfin. cbn [rows].
    eapply perm_trans; [|apply (@sample_then_drop rng1 n cols l H)].
    apply Permutation_app_head. fold rest.
    assert (Hrest : NoDup (labels (rows rest)))
      by (apply drop_keeps_distinct; exact H).
    destruct rest as [cols' l']. cbn [rows columns] in *.
    apply sample_then_drop, Hrest.
Qed.

Lemma resample_then_split_witness :
  (exists train validation,
      Splitter.split_train_validation [5; 2]%nat
        (concat_ignore_index (loc converted (Examples.one_in 20))
                             (Examples.one_in 20))
      = Ok (train, validation) /\
      Permutation (rows train ++ rows validation)
        (rows (concat_ignore_index (loc converted (Examples.one_in 20))
                                   (Examples.one_in 20))) /\
      NoDup (labels (rows train ++ rows validation)))
  /\
  (exists train validation test,
      Splitter.split_train_validation_test [5; 2]%nat [7]%nat
        (concat_ignore_index (loc converted (Examples.one_in 20))
                             (Examples.one_in 20))
      = Ok (train, validation, test) /\
      Permutation (rows train ++ rows validation ++ rows test)
        (rows (concat_ignore_index (loc converted (Examples.one_in 20))
                                   (Examples.one_in 20))) /\
      NoDup (labels (rows train ++ rows validation ++ rows test))).
Proof.
  apply (@resample_then_split [] [5; 2]%nat [7]%nat (Examples.one_in 20)).
  vm_compute. reflexivity.
Defined.

(** X6: even when index labels repeat, the three-way split of cells 26, 33
    and 39 succeeds, every row of a subset is a row of the input, no label is
    shared between two subsets, and the subsets together hold no more rows
    than the input. *)
Theorem split_never_shares_labels (rng1 rng2 : list nat) (df : DataFrame) :
  exists train validation test,
    Splitter.split_train_validation_test rng1 rng2 df
    = Ok (train, validation, test) /\
    incl (rows train ++ rows validation ++ rows test) (rows df) /\
    (forall r r', In r (rows train) -> In r' (rows validation) ->
                  index r <> index r') /\
    (forall r r', In r (rows train) -> In r' (rows test) ->
                  index r <> index r') /\
    (forall r r', In r (rows validation) -> In r' (rows test) ->
                  index r <> index r') /\
    (length (rows train) + length (rows validation) + length (rows test)
     <= len df)%nat.
Proof.
  destruct df as [cols l].
  unfold Splitter.split_train_validation_test, len.
  destruct (sample_fraction rng1 (frac := 7 # 10) (mkFrame cols l))
    as [n [_ ->]]; [discriminate | discriminate |].
  cbn [bind columns rows].
  set (train := choice rng1 n l).
  pose proof (sample_then_drop_length rng1 n cols l) as Hlen1.
  fold train in Hlen1.
  set (rest := drop (labels train) (mkFrame cols l)) in *.
  assert (Hrest : forall r, In r (rows rest) ->
                            In r l /\ ~ In (index r) (labels train)).
  { intros r Hr. apply (drop_excludes _ _ _ Hr). }
  destruct (sample_fraction rng2 (frac := 66 # 100) rest)
    as [k [_ ->]]; [discriminate | discriminate |].
  cbn [bind columns rows].
  set (validation := choice rng2 k (rows rest)).
  pose proof (sample_then_drop_length rng2 k (columns rest) (rows rest))
    as Hlen2.
  fold validation in Hlen2.
  assert (Erest : mkFrame (columns rest) (rows rest) = rest)
    by (destruct rest; reflexivity).
  rewrite Erest in Hlen2.
  set (test := drop (labels validation) rest) in *.
  assert (Htest : forall r, In r (rows test) ->
                            In r (rows rest) /\
                            ~ In (index r) (labels validation)).
  { intros r Hr. apply (drop_excludes _ _ _ Hr). }
  assert (Hval : forall r, In r validation -> In r (rows rest)).
  { intros r Hr. apply (choice_incl _ _ _ _ Hr). }
  eexists _, _, _. split; [reflexivity|]. cbn [rows].
  repeat split.
  - intros r Hr. apply in_app_or in Hr. destruct Hr as [Hr|Hr].
    + apply (choice_incl _ _ _ _ Hr).
    + apply in_app_or in Hr. destruct Hr as [Hr|Hr].
      * apply Hrest, Hval, Hr.
      * apply Hrest, Htest, Hr.
  - intros r r' Hr Hr' E.
    apply (proj2 (Hrest r' (Hval r' Hr'))). rewrite <- E.
    apply in_map, Hr.
  - intros r r' Hr Hr' E.
    apply (proj2 (Hrest r' (proj1 (Htest r' Hr')))). rewrite <- E.
    apply in_map, Hr.
  - intros r r' Hr Hr' E.
    apply (proj2 (Htest r' Hr')). rewrite <- E. apply in_map, Hr.
  - cbn [rows] in Hlen1. lia.
Qed.

Lemma drop_all (cols : list string) (l l' : list Row) :
  Permutation l' l -> rows (drop (labels l') (mkFrame cols l)) = [].
Proof.
  intros Hp. cbn [drop rows]. apply filter_none. intros r Hr.
  assert (E : existsb (Nat.eqb (index r)) (labels l') = true).
  { apply listed_spec. apply in_map.
    eapply Permutation_in; [apply Permutation_sym, Hp | exact Hr]. }
  now rewrite E.
Qed.

Lemma nine_tenths_small (n : nat) :
  (n <= 4)%nat ->
  round_half_even ((9 # 10) * inject_Z (Z.of_nat n))%Q = Z.of_nat n.
Proof.
  intros H.
  destruct n as [|[|[|[|[|n]]]]]; try (vm_compute; reflexivity). lia.
Qed.

Lemma nine_tenths_large (n : nat) :
  (6 <= n)%nat ->
  (round_half_even ((9 # 10) * inject_Z (Z.of_nat n))%Q < Z.of_nat n)%Z.
Proof.
  intros H.
  assert (Hr : (round_half_even ((9 # 10) * inject_Z (Z.of_nat n))%Q
                <= Z.of_nat n - 1)%Z); [|lia].
  apply round_half_even_below.
  unfold Zminus. rewrite inject_Z_plus.
  change (inject_Z (Z.opp 1)) with (-1 # 1)%Q.
  assert (Hn : (6 <= inject_Z (Z.of_nat n))%Q).
  { change 6%Q with (inject_Z 6). rewrite <- Zle_Qle. lia. }
  lra.
Qed.

Lemma sample_fraction_size (rng : list nat) (frac : Q) (df : DataFrame) :
  (0 <= frac)%Q -> (frac <= 1)%Q ->
  let n := round_half_even (frac * inject_Z (Z.of_nat (len df)))%Q in
  (0 <= n <= Z.of_nat (len df))%Z /\
  sample rng frac df
  = Ok (mkFrame (columns df) (choice rng (Z.to_nat n) (rows df))).
Proof.
  intros H0 H1 n. unfold sample. fold n.
  assert (Ht : (0 <= inject_Z (Z.of_nat (len df)))%Q).
  { change 0%Q with (inject_Z 0). rewrite <- Zle_Qle. lia. }
  assert (Hlo : (0 <= n)%Z).
  { apply round_half_even_lower. change (inject_Z 0) with 0%Q.
    apply Qmult_le_0_compat; assumption. }
  assert (Hhi : (n <= Z.of_nat (len df))%Z).
  { apply round_half_even_upper.
    rewrite <- (Qmult_1_l (inject_Z (Z.of_nat (len df)))) at 2.
    apply Qmult_le_compat_r; assumption. }
  split; [lia|].
  destruct (n <? 0)%Z eqn:E0; [apply Z.ltb_lt in E0; lia|].
  destruct (Z.of_nat (len df) <? n)%Z eqn:E1; [apply Z.ltb_lt in E1; lia|].
  reflexivity.
Qed.

(** X7: the 90/10 split of cell 6 leaves the validation set empty for every
    frame of at most four rows, and with a unique row index gives it at least
    one row for every frame of six rows or more. *)
Theorem split_validation_size (rng : list nat) (df : DataFrame) :
  exists train validation,
    Splitter.split_train_validation rng df = Ok (train, validation) /\
    ((len df <= 4)%nat -> rows validation = []) /\
    ((6 <= len df)%nat -> NoDup (labels (rows df)) ->
     rows validation <> []).
Proof.
  destruct df as [cols l]. unfold Splitter.split_train_validation.
  destruct (sample_fraction_size rng (frac := 9 # 10) (mkFrame cols l))
    as [Hn ->]; [discriminate | discriminate |].
  unfold len in *. cbn [rows columns bind] in *.
  set (n := round_half_even _) in *.
  eexists _, _. split; [reflexivity|]. cbn [rows]. split.
  - intros Hsmall.
    assert (En : n = Z.of_nat (length l))
      by (apply nine_tenths_small; exact Hsmall).
    rewrite En, Nat2Z.id.
    apply drop_all. unfold choice. rewrite firstn_all2.
    + apply shuffle_perm.
    + rewrite (Permutation_length (shuffle_perm rng l)). lia.
  - intros Hlarge Hnd Hempty.
    pose proof (@sample_then_drop rng (Z.to_nat n) cols l Hnd) as Hp.
    cbn [rows] in Hp. rewrite Hempty, app_nil_r in Hp.
    apply Permutation_length in Hp.
    rewrite choice_length in Hp by lia.
    pose proof (nine_tenths_large Hlarge) as Hlt. fold n in Hlt. lia.
Qed.

Lemma split_validation_size_witness :
  exists train validation,
    Splitter.split_train_validation [4; 0; 9]%nat Samples.seven
    = Ok (train, validation) /\
    rows validation <> [].
Proof.
  destruct (split_validation_size [4; 0; 9]%nat Samples.seven)
    as [train [validation [E [_ H]]]].
  exists train, validation. split; [exact E|]. apply H.
  - vm_compute. lia.
  - simpl. repeat constructor; simpl; lia.
Defined.

(** ** The evaluator: both printed figures *)

Lemma nonzero_errors (err : Row -> Q) (l : list Row) :
  map fst (filter (fun er : Q * Row => converted (snd er))
                  (combine (map err l) l))
  = map err (filter converted l).
Proof.
  induction l as [|r l IH]; [reflexivity|].
  cbn [map combine filter snd].
  destruct (converted r); cbn [map fst]; rewrite IH; reflexivity.
Qed.

(** X8: the evaluator's two figures are the mean absolute error over all
    test rows and the mean absolute error over the rows with
    [conversion_rate > 0], each a NaN when it has no row to average: the
    second one whenever the test set has no converted row, both (with no
    request sent) on an empty test set. *)
Theorem evaluate_figures
  (ep : Evaluator.Endpoint) (test_data : list Row) (log : Evaluator.Log) :
  let err := fun r => Qabs (ep (features r) - conversion_rate r) in
  Evaluator.evaluate ep test_data log
  = (Evaluator.mean (map err test_data),
     Evaluator.mean (map err (filter converted test_data)),
     log ++ map features test_data)
  /\ (filter converted test_data = [] ->
      snd (fst (Evaluator.evaluate ep test_data log)) = None)
  /\ (test_data = [] ->
      Evaluator.evaluate ep test_data log = (None, None, log)).
Proof.
  intros err.
  assert (E : Evaluator.evaluate ep test_data log
              = (Evaluator.mean (map err test_data),
                 Evaluator.mean (map err (filter converted test_data)),
                 log ++ map features test_data)).
  { unfold Evaluator.evaluate.
    rewrite predict_spec, error_column_spec. fold err.
    rewrite nonzero_errors. reflexivity. }
  split; [exact E|]. split.
  - intros Hnone. rewrite E, Hnone. reflexivity.
  - intros ->. rewrite E. cbn. now rewrite app_nil_r.
Qed.

Lemma evaluate_figures_witness :
  snd (fst (Evaluator.evaluate (fun x => hd 0%Q x)
              [Examples.miss 0; Examples.miss 1] []))
  = None.
Proof.
  apply (proj1 (proj2 (evaluate_figures (fun x => hd 0%Q x)
                         [Examples.miss 0; Examples.miss 1] []))).
  reflexivity.
Defined.

Lemma sum_nonneg (xs : list Q) :
  Forall (fun x => 0 <= x)%Q xs -> (0 <= fold_right Qplus 0 xs)%Q.
Proof.
  induction 1 as [|x xs Hx _ IH]; simpl; [lra|]. lra.
Qed.

Lemma sum_zero (xs : list Q) :
  Forall (fun x => 0 <= x)%Q xs ->
  (fold_right Qplus 0 xs == 0)%Q <-> Forall (fun x => x == 0)%Q xs.
Proof.
  induction 1 as [|x xs Hx Hxs IH]; simpl.
  - split; [constructor | reflexivity].
  - pose proof (sum_nonneg Hxs) as Hs. split.
    + intros E. constructor; [lra|]. apply IH. lra.
    + intros F. inversion F as [|? ? Ex Fxs]; subst.
      apply IH in Fxs. lra.
Qed.

Lemma Qabs_zero (x : Q) : (Qabs x == 0)%Q <-> (x == 0)%Q.
Proof.
  split; intros H.
  - pose proof (Qle_Qabs x) as H1. pose proof (Qle_Qabs (- x)) as H2.
    rewrite Qabs_opp in H2. lra.
  - rewrite H. reflexivity.
Qed.

(** X9: on a non-empty test set the printed mean absolute error is a
    number, never negative, and zero exactly when the endpoint predicts the
    [conversion_rate] of every test row. *)
Theorem evaluate_error_zero
  (ep : Evaluator.Endpoint) (test_data : list Row) (log : Evaluator.Log) :
  test_data <> [] ->
  exists printed,
    fst (fst (Evaluator.evaluate ep test_data log)) = Some printed /\
    (0 <= printed)%Q /\
    ((printed == 0)%Q <->
     forall r, In r test_data -> (ep (features r) == conversion_rate r)%Q).
Proof.
  intros Hne.
  unfold Evaluator.evaluate. rewrite predict_spec, error_column_spec.
  set (err := fun r => Qabs (ep (features r) - conversion_rate r)).
  cbn [fst].
  assert (Hpos : Forall (fun x => 0 <= x)%Q (map err test_data)).
  { apply Forall_forall. intros x Hx. apply in_map_iff in Hx.
    destruct Hx as [r [<- _]]. apply Qabs_nonneg. }
  destruct test_data as [|r l]; [contradiction|].
  set (errors := map err (r :: l)) in *.
  assert (Hlen : (0 < inject_Z (Z.of_nat (length errors)))%Q).
  { change 0%Q with (inject_Z 0). rewrite <- Zlt_Qlt.
    unfold errors. simpl. lia. }
  unfold Evaluator.mean.
  destruct errors as [|e errors'] eqn:Eerr; [discriminate|].
  eexists. split; [reflexivity|].
  rewrite total_spec.
  pose proof (sum_nonneg Hpos) as Hs.
  pose proof (sum_zero Hpos) as Hz.
  set (sum := fold_right Qplus 0 (e :: errors')) in *.
  set (n := inject_Z (Z.of_nat (length (e :: errors')))) in *.
  assert (Hinv : (0 < / n)%Q) by (apply Qinv_lt_0_compat; exact Hlen).
  split.
  - unfold Qdiv. apply Qmult_le_0_compat;
      [exact Hs | apply Qlt_le_weak; exact Hinv].
  - assert (Hdiv : (sum / n == 0)%Q <-> (sum == 0)%Q).
    { split; intros E.
      - assert (E' : (sum / n * n == 0 * n)%Q) by (rewrite E; reflexivity).
        rewrite Qmult_0_l in E'.
        rewrite <- E'. field. lra.
      - rewrite E. unfold Qdiv. apply Qmult_0_l. }
    rewrite Hdiv, Hz. rewrite <- Eerr. unfold errors.
    rewrite Forall_forall. split.
    + intros H r0 Hr0.
      assert (Hx : (err r0 == 0)%Q) by (apply H, in_map, Hr0).
      unfold err in Hx. apply (proj1 (Qabs_zero _)) in Hx.
      apply Qplus_inj_r with (z := (- conversion_rate r0)%Q).
      rewrite Qplus_opp_r. exact Hx.
    + intros H x Hx. apply in_map_iff in Hx. destruct Hx as [r0 [<- Hr0]].
      unfold err. apply (proj2 (Qabs_zero _)). specialize (H r0 Hr0).
      rewrite H. apply Qplus_opp_r.
Qed.

Lemma evaluate_error_zero_witness :
  exists printed,
    fst (fst (Evaluator.evaluate (fun x => hd 0%Q x)
                [Examples.miss 0] []))
    = Some printed /\
    (0 <= printed)%Q /\
    ((printed == 0)%Q <->
     forall r, In r [Examples.miss 0] ->
               (hd 0 (features r) == conversion_rate r)%Q).
Proof.
  apply (@evaluate_error_zero (fun x => hd 0%Q x) [Examples.miss 0] []).
  discriminate.
Defined.

(** ** The poll loop: what it stops asking, what it never reads *)

Lemma run_stays_read (svc : Tuning.Service) (k j n : nat) :
  Tuning.run svc k = Tuning.ReadBest j -> (k <= n)%nat ->
  Tuning.run svc n = Tuning.ReadBest j.
Proof.
  intros H Hle. induction Hle as [|n _ IH]; [exact H|].
  simpl. now rewrite IH.
Qed.

Lemma still_running_agree (svc svc' : Tuning.Service) (k : nat) :
  (forall i, (i <= k)%nat -> svc i = svc' i) ->
  Tuning.still_running_before svc k ->
  forall n, (n <= k)%nat -> Tuning.still_running_before svc' n.
Proof.
  intros Hag Hb n Hn i Hi.
  destruct (Hb i ltac:(lia)) as [status [E Hc]].
  exists status. split; [|exact Hc]. rewrite <- Hag by lia. exact E.
Qed.

(** X10: once a poll answers ['Completed'] or raises, the service is not
    asked again: two services that agree up to the first such poll drive the
    loop through the same states at every turn, whatever they would answer
    later. *)
Theorem poll_loop_ignores_later_answers
  (svc svc' : Tuning.Service) (k : nat) :
  (forall i, (i <= k)%nat -> svc i = svc' i) ->
  (forall i, (i < k)%nat ->
     exists status, svc i = Ok status /\ status <> "Completed"%string) ->
  (svc k = Ok "Completed"%string \/ exists e, svc k = Raise e) ->
  forall n, Tuning.run svc n = Tuning.run svc' n.
Proof.
  intros Hag Hb Hk n.
  assert (Hb1 : Tuning.still_running_before svc k).
  { intros i Hi. destruct (Hb i Hi) as [status [Es Hne]].
    exists status. split; [exact Es|].
    destruct (Tuning.completed status) eqn:Hc; [|reflexivity].
    apply completed_spec in Hc. contradiction. }
  assert (Hb2 : forall m, (m <= k)%nat ->
                          Tuning.still_running_before svc' m)
    by (apply (@still_running_agree svc svc' k Hag Hb1)).
  assert (Hb1' : forall m, (m <= k)%nat ->
                           Tuning.still_running_before svc m).
  { intros m Hm i Hi. apply Hb1. lia. }
  assert (Hearly : forall m, (m <= k)%nat ->
                             Tuning.run svc m = Tuning.run svc' m).
  { intros m Hm. rewrite (run_waits (Hb1' m Hm)), (run_waits (Hb2 m Hm)).
    unfold Tuning.describe. now rewrite (Hag m Hm). }
  destruct (Nat.le_gt_cases n k) as [Hn | Hn]; [apply Hearly, Hn|].
  pose proof (Hearly k (Nat.le_refl k)) as Ek.
  pose proof (run_waits (Hb1' k (Nat.le_refl k))) as Rk.
  unfold Tuning.describe in Rk.
  destruct Hk as [Hc | [e He]].
  - rewrite Hc in Rk.
    assert (R1 : Tuning.run svc (S k) = Tuning.ReadBest k)
      by (simpl; rewrite Rk; reflexivity).
    assert (R2 : Tuning.run svc' (S k) = Tuning.ReadBest k)
      by (simpl; rewrite <- Ek, Rk; reflexivity).
    rewrite (run_stays_read svc R1), (run_stays_read svc' R2) by lia.
    reflexivity.
  - rewrite He in Rk.
    assert (Rk' : Tuning.run svc' k = Tuning.Faulted e)
      by (rewrite <- Ek; exact Rk).
    rewrite (run_stays_faulted svc Rk), (run_stays_faulted svc' Rk') by lia.
    reflexivity.
Qed.

Lemma poll_loop_ignores_later_answers_witness :
  Tuning.run
    (fun i => if Nat.ltb i 1 then Ok "InProgress"%string
              else Ok "Completed"%string) 7
  = Tuning.run
      (fun i => if Nat.ltb i 1 then Ok "InProgress"%string
                else if Nat.ltb i 2 then Ok "Completed"%string
                else Raise RemoteFault) 7.
Proof.
  apply (@poll_loop_ignores_later_answers
           (fun i => if Nat.ltb i 1 then Ok "InProgress"%string
                     else Ok "Completed"%string)
           (fun i => if Nat.ltb i 1 then Ok "InProgress"%string
                     else if Nat.ltb i 2 then Ok "Completed"%string
                     else Raise RemoteFault) 1%nat).
  - intros i Hi. destruct i as [|[|i]]; [reflexivity | reflexivity | lia].
  - intros i Hi. exists "InProgress"%string.
    destruct i as [|i]; [split; [reflexivity | discriminate] | lia].
  - left. reflexivity.
Defined.

(** X11: when a call to the remote service raises before any answer was
    ['Completed'], the tuned hyperparameters are never read: the loop reaches
    no state past the wait. *)
Theorem poll_loop_never_reads_after_fault
  (svc : Tuning.Service) (k : nat) (e : exn) :
  svc k = Raise e ->
  (forall i, (i < k)%nat ->
     exists status, svc i = Ok status /\ status <> "Completed"%string) ->
  forall j, ~ Tuning.reachable svc (Tuning.ReadBest j).
Proof.
  intros He Hb j Hj. apply reachable_consistent in Hj.
  destruct Hj as [Ej Hbj].
  destruct (Nat.lt_trichotomy j k) as [L | [-> | L]].
  - destruct (Hb j L) as [status [Es Hne]].
    rewrite Ej in Es. injection Es as <-. contradiction.
  - rewrite He in Ej. discriminate.
  - destruct (Hbj k L) as [status [Es _]].
    rewrite He in Es. discriminate.
Qed.

Lemma poll_loop_never_reads_after_fault_witness :
  ~ Tuning.reachable
      (fun i => if Nat.ltb i 2 then Ok "InProgress"%string
                else Raise RemoteFault)
      (Tuning.ReadBest 2).
Proof.
  apply (@poll_loop_never_reads_after_fault
           (fun i => if Nat.ltb i 2 then Ok "InProgress"%string
                     else Raise RemoteFault) 2%nat RemoteFault).
  - reflexivity.
  - intros i Hi. exists "InProgress"%string.
    destruct i as [|[|i]]; [split; [reflexivity|discriminate].. | lia].
Defined.

(** ** The model inspector: when groups are exact, and the table's shape *)

Lemma filter_singleton {A : Type} (f : A -> bool) (x : A) (l : list A) :
  NoDup l -> In x l -> (forall y, In y l -> (f y = true <-> y = x)) ->
  filter f l = [x].
Proof.
  induction l as [|a l IH]; intros Hnd Hin Hf; [contradiction|].
  inversion Hnd as [|? ? Hnotin Hnd']; subst. simpl.
  destruct (f a) eqn:Efa.
  - apply (Hf a (or_introl eq_refl)) in Efa. subst a. f_equal.
    apply filter_none. intros y Hy.
    destruct (f y) eqn:Efy; [|reflexivity].
    apply (Hf y (or_intror Hy)) in Efy. subst y. contradiction.
  - destruct Hin as [-> | Hin].
    + assert (E : f x = true) by (apply Hf; [left|]; reflexivity).
      rewrite E in Efa. discriminate.
    + apply IH; [exact Hnd' | exact Hin |].
      intros y Hy. apply Hf. right; exact Hy.
Qed.

(** X12: every feature's weight is counted in exactly one group, the one
    named by the text before its first ['-'], if and only if no top-level
    name is a prefix of a feature column with another top-level name. *)
Theorem groups_exact_iff_prefix_free (cols : list string) :
  (forall col, In col (Inspector.feature_columns cols) ->
     Inspector.groups_of cols col = [Inspector.before_dash col])
  <->
  (forall c1 c2,
     In c1 (Inspector.feature_columns cols) ->
     In c2 (Inspector.feature_columns cols) ->
     Inspector.startswith c2 (Inspector.before_dash c1) = true ->
     Inspector.before_dash c1 = Inspector.before_dash c2).
Proof.
  split.
  - intros H c1 c2 H1 H2 Hs.
    assert (Hin : In (Inspector.before_dash c1)
                     (Inspector.groups_of cols c2)).
    { unfold Inspector.groups_of. apply filter_In. split; [|exact Hs].
      unfold Inspector.top_level_features. apply nodup_In.
      apply in_map, H1. }
    rewrite (H c2 H2) in Hin. destruct Hin as [E | []]. now symmetry.
  - intros H col Hcol. unfold Inspector.groups_of.
    apply filter_singleton.
    + apply NoDup_nodup.
    + unfold Inspector.top_level_features. apply nodup_In.
      apply in_map, Hcol.
    + intros g Hg. unfold Inspector.top_level_features in Hg.
      apply nodup_In in Hg. apply in_map_iff in Hg.
      destruct Hg as [c1 [<- H1]]. split.
      * intros Hs. apply (H c1 col H1 Hcol Hs).
      * intros ->. apply startswith_before_dash.
Qed.

Lemma groups_exact_iff_prefix_free_witness :
  Inspector.groups_of
    ["conversion_rate"; "banner_width-300"; "banner_width-728";
     "rewarded"]%string "banner_width-728"
  = [Inspector.before_dash "banner_width-728"].
Proof.
  apply (proj2 (groups_exact_iff_prefix_free
                  ["conversion_rate"; "banner_width-300"; "banner_width-728";
                   "rewarded"]%string)).
  - intros c1 c2 H1 H2 Hs. simpl in H1, H2.
    destruct H1 as [<- | [<- | [<- | []]]];
      destruct H2 as [<- | [<- | [<- | []]]];
      try reflexivity; vm_compute in Hs; discriminate Hs.
  - simpl. right. left. reflexivity.
Defined.

















(** ** The descriptor and the dimension the model was trained with *)

Lemma list_remove_ok_in (x : string) (l l' : list string) :
  Descriptor.list_remove x l = Ok l' -> In x l.
Proof.
  revert l'; induction l as [|y t IH]; intros l' H; [discriminate|].
  simpl in H. destruct (String.eqb y x) eqn:E.
  - apply String.eqb_eq in E. left. exact E.
  - destruct (Descriptor.list_remove x t) as [t'|e]; [|discriminate].
    right. apply (IH t' eq_refl).
Qed.

(** X16: the feature list written to the descriptor has exactly
    [feature_dim = len(sampled_data.columns) - 1] names, the dimension the
    last model was trained with; it holds no ['conversion_rate'] when the
    column labels are distinct; and the endpoint it names carries the name of
    a training job the platform ran. *)
Theorem descriptor_matches_feature_dim
  (timestamp : string) (sampled_data : DataFrame) (cloud : Descriptor.Cloud)
  (out : Descriptor.Outcome) :
  Descriptor.final_cells timestamp sampled_data cloud = Ok out ->
  exists names,
    Descriptor.written out
    = Descriptor.JObject
        [("features"%string,
          Descriptor.JArray (map Descriptor.JString names));
         ("endpoint_name"%string,
          Descriptor.JString (Descriptor.sampled_job_name timestamp))] /\
    Z.of_nat (length names) = Table.feature_dim (columns sampled_data) /\
    (NoDup (columns sampled_data) -> ~ In "conversion_rate"%string names) /\
    In (Descriptor.sampled_job_name timestamp)
       (Descriptor.training_jobs (Descriptor.cloud_after out)).
Proof.
  unfold Descriptor.final_cells.
  cbn [Descriptor.fit Descriptor.deploy Descriptor.latest_training_job
       bind fst snd].
  destruct (Descriptor.list_remove "conversion_rate" (columns sampled_data))
    as [names|e] eqn:Erem; [|discriminate].
  cbn [bind]. intros [= <-].
  cbn [Descriptor.written Descriptor.cloud_after Descriptor.training_jobs].
  exists names. split; [reflexivity|].
  destruct (list_remove_spec _ _ (list_remove_ok_in _ _ Erem))
    as [pre [post [Ecols [Hpre Erem']]]].
  rewrite Erem in Erem'. injection Erem' as ->.
  split; [|split].
  - unfold Table.feature_dim. rewrite Ecols, !length_app. simpl. lia.
  - intros Hnd Hin. rewrite Ecols in Hnd.
    apply NoDup_remove_2 in Hnd. contradiction.
  - apply in_or_app. right. left. reflexivity.
Qed.

Lemma descriptor_matches_feature_dim_witness :
  exists names,
    Descriptor.written
      (Descriptor.mkOutcome
         (Descriptor.JObject
            [("features"%string,
              Descriptor.JArray
                (map Descriptor.JString
                   ["platform-ios"; "platform_device_make-apple"]%string));
             ("endpoint_name"%string,
              Descriptor.JString (Descriptor.sampled_job_name "1546300800"))])
         (Descriptor.sampled_job_name "1546300800")
         (Descriptor.mkCloud [Descriptor.sampled_job_name "1546300800"]
                             [Descriptor.sampled_job_name "1546300800"]))
    = Descriptor.JObject
        [("features"%string,
          Descriptor.JArray (map Descriptor.JString names));
         ("endpoint_name"%string,
          Descriptor.JString (Descriptor.sampled_job_name "1546300800"))] /\
    Z.of_nat (length names)
    = Table.feature_dim (columns (Examples.one_in 2)) /\
    (NoDup (columns (Examples.one_in 2)) ->
     ~ In "conversion_rate"%string names) /\
    In (Descriptor.sampled_job_name "1546300800")
       (Descriptor.training_jobs
          (Descriptor.cloud_after
             (Descriptor.mkOutcome
                (Descriptor.JObject
                   [("features"%string,
                     Descriptor.JArray
                       (map Descriptor.JString
                          ["platform-ios";
                           "platform_device_make-apple"]%string));
                    ("endpoint_name"%string,
                     Descriptor.JString
                       (Descriptor.sampled_job_name "1546300800"))])
                (Descriptor.sampled_job_name "1546300800")
                (Descriptor.mkCloud
                   [Descriptor.sampled_job_name "1546300800"]
                   [Descriptor.sampled_job_name "1546300800"])))).
Proof.
  apply (@descriptor_matches_feature_dim "1546300800" (Examples.one_in 2)
           (Descriptor.mkCloud [] [])).
  vm_compute. reflexivity.
Defined.

(** ** Column selection and the exported records *)

Section TableFacts.

Import Table.

Lemma cells_where_none (keep : string -> bool) (hdr : list string) :
  forall cells,
    (forall h, In h hdr -> keep h = false) -> cells_where keep hdr cells = [].
Proof.
  induction hdr as [|h hs IH]; intros cells H; [reflexivity|].
  destruct cells as [|c cs]; [reflexivity|]. cbn [cells_where].
  rewrite (H h (or_introl eq_refl)). apply IH.
  intros h' Hh'. apply H. right; exact Hh'.
Qed.

Lemma cells_where_ext (f g : string -> bool) (hdr : list string) :
  forall cells,
    (forall h, In h hdr -> f h = g h) ->
    cells_where f hdr cells = cells_where g hdr cells.
Proof.
  induction hdr as [|h hs IH]; intros cells H; [reflexivity|].
  destruct cells as [|c cs]; [reflexivity|]. cbn [cells_where].
  rewrite (H h (or_introl eq_refl)), (IH cs); [reflexivity|].
  intros h' Hh'. apply H. right; exact Hh'.
Qed.

Lemma cells_where_all (hdr : list string) :
  forall cells,
    length cells = length hdr -> cells_where (fun _ => true) hdr cells = cells.
Proof.
  induction hdr as [|h hs IH]; intros [|c cs] H; try discriminate;
    [reflexivity|].
  cbn [cells_where]. f_equal. apply IH. simpl in H. lia.
Qed.

Lemma cells_where_length (keep : string -> bool) (hdr : list string) :
  forall cells,
    length cells = length hdr ->
    length (cells_where keep hdr cells) = length (filter keep hdr).
Proof.
  induction hdr as [|h hs IH]; intros [|c cs] H; try discriminate;
    [reflexivity|].
  cbn [cells_where filter]. simpl in H.
  destruct (keep h); simpl; rewrite IH by lia; reflexivity.
Qed.

Lemma cells_where_nil (keep : string -> bool) (hdr : list string) :
  cells_where keep hdr [] = [].
Proof. destruct hdr; reflexivity. Qed.

Lemma cells_where_twice (k1 k2 : string -> bool) (hdr : list string) :
  forall cells,
    cells_where k2 (filter k1 hdr) (cells_where k1 hdr cells)
    = cells_where (fun h => k1 h && k2 h) hdr cells.
Proof.
  induction hdr as [|h hs IH]; intros cells; [reflexivity|].
  destruct cells as [|c cs].
  - rewrite !cells_where_nil. reflexivity.
  - cbn [cells_where filter]. destruct (k1 h); cbn [andb cells_where].
    + destruct (k2 h); rewrite IH; reflexivity.
    + apply IH.
Qed.

Lemma filter_twice (k1 k2 : string -> bool) (hdr : list string) :
  filter k2 (filter k1 hdr) = filter (fun h => k1 h && k2 h) hdr.
Proof.
  induction hdr as [|h hs IH]; [reflexivity|]. cbn [filter].
  destruct (k1 h); cbn [andb filter]; [destruct (k2 h)|]; rewrite IH;
    reflexivity.
Qed.

Lemma flat_map_ext_in {A B : Type} (f g : A -> list B) (l : list A) :
  (forall x, In x l -> f x = g x) -> flat_map f l = flat_map g l.
Proof.
  induction l as [|a l IH]; intros H; [reflexivity|]. simpl.
  rewrite (H a (or_introl eq_refl)), IH; [reflexivity|].
  intros x Hx. apply H. right; exact Hx.
Qed.

Lemma eqb_other (n h : string) (hs : list string) :
  ~ In h hs -> In n hs -> String.eqb n h = false.
Proof.
  intros Hh Hn. apply String.eqb_neq. intros ->. contradiction.
Qed.

(** With distinct labels, selecting by the labels that pass [keep] picks
    the columns under them, each once. *)
Lemma select_cells (keep : string -> bool) (hdr : list string) :
  NoDup hdr ->
  forall cells,
    flat_map (fun n => cells_where (String.eqb n) hdr cells) (filter keep hdr)
    = cells_where keep hdr cells.
Proof.
  induction hdr as [|h hs IH]; intros Hnd cells; [reflexivity|].
  inversion Hnd as [|? ? Hnotin Hnd']; subst.
  assert (Hrest : forall cs c,
             flat_map (fun n => cells_where (String.eqb n) (h :: hs) (c :: cs))
                      (filter keep hs)
             = cells_where keep hs cs).
  { intros cs c. rewrite <- (IH Hnd' cs). apply flat_map_ext_in.
    intros n Hn. apply filter_In in Hn. destruct Hn as [Hn _].
    cbn [cells_where]. now rewrite (@eqb_other n h hs Hnotin Hn). }
  destruct cells as [|c cs].
  - cbn [cells_where]. induction (filter keep (h :: hs)); auto.
  - change (filter keep (h :: hs))
      with (if keep h then h :: filter keep hs else filter keep hs).
    change (cells_where keep (h :: hs) (c :: cs))
      with (if keep h then c :: cells_where keep hs cs
            else cells_where keep hs cs).
    destruct (keep h).
    + cbn [flat_map]. rewrite Hrest.
      change (cells_where (String.eqb h) (h :: hs) (c :: cs))
        with (if String.eqb h h then c :: cells_where (String.eqb h) hs cs
              else cells_where (String.eqb h) hs cs).
      rewrite String.eqb_refl.
      rewrite (cells_where_none (String.eqb h) hs cs); [reflexivity|].
      intros h' Hh'. apply String.eqb_neq. intros ->. contradiction.
    + apply Hrest.
Qed.

Lemma select_labels (keep : string -> bool) (hdr : list string) :
  NoDup hdr ->
  flat_map (fun n => filter (String.eqb n) hdr) (filter keep hdr)
  = filter keep hdr.
Proof.
  induction hdr as [|h hs IH]; intros Hnd; [reflexivity|].
  inversion Hnd as [|? ? Hnotin Hnd']; subst.
  assert (Hrest : flat_map (fun n => filter (String.eqb n) (h :: hs))
                           (filter keep hs)
                  = filter keep hs).
  { rewrite <- (IH Hnd') at 2. apply flat_map_ext_in.
    intros n Hn. apply filter_In in Hn. destruct Hn as [Hn _].
    cbn [filter]. now rewrite (@eqb_other n h hs Hnotin Hn). }
  change (filter keep (h :: hs))
    with (if keep h then h :: filter keep hs else filter keep hs).
  destruct (keep h).
  - cbn [flat_map]. rewrite Hrest.
    change (filter (String.eqb h) (h :: hs))
      with (if String.eqb h h then h :: filter (String.eqb h) hs
            else filter (String.eqb h) hs).
    rewrite String.eqb_refl.
    rewrite (filter_none (String.eqb h) hs); [reflexivity|].
    intros h' Hh'. apply String.eqb_neq. intros ->. contradiction.
  - apply Hrest.
Qed.

Lemma find_absent {A : Type} (f : A -> bool) (l : list A) :
  (forall x, In x l -> f x = false) -> find f l = None.
Proof.
  induction l as [|a l IH]; intros H; [reflexivity|]. simpl.
  rewrite (H a (or_introl eq_refl)). apply IH.
  intros x Hx. apply H. right; exact Hx.
Qed.

Lemma labelled_spec (n : string) (hdr : list string) :
  existsb (String.eqb n) hdr = true <-> In n hdr.
Proof.
  rewrite existsb_exists. split.
  - intros [x [Hx E]]. apply String.eqb_eq in E. now subst.
  - intros H. exists n. split; [exact H | apply String.eqb_refl].
Qed.

(** Selecting the labels that pass [keep] from a frame with distinct labels
    never raises and is the frame cut down to those columns. *)
Lemma getitem_list_masked (keep : string -> bool) (t : table) :
  NoDup (header t) ->
  getitem_list (filter keep (header t)) t = Got (masked keep t).
Proof.
  intros Hnd. unfold getitem_list, masked.
  rewrite find_absent.
  - rewrite (select_labels keep Hnd). f_equal. f_equal.
    apply map_ext. intros r. now rewrite (select_cells keep Hnd).
  - intros n Hn. apply filter_In in Hn. destruct Hn as [Hn _].
    apply (proj2 (labelled_spec n (header t))) in Hn. now rewrite Hn.
Qed.

Lemma masked_well_formed (keep : string -> bool) (t : table) :
  well_formed t -> well_formed (masked keep t).
Proof.
  unfold well_formed, masked. cbn [header body]. intros H.
  apply Forall_forall. intros r Hr. apply in_map_iff in Hr.
  destruct Hr as [r0 [<- Hr0]]. cbn [snd].
  apply cells_where_length. rewrite Forall_forall in H. apply H, Hr0.
Qed.

Lemma masked_twice (k1 k2 : string -> bool) (t : table) :
  masked k2 (masked k1 t) = masked (fun h => k1 h && k2 h) t.
Proof.
  unfold masked. cbn [header body]. rewrite filter_twice, map_map.
  f_equal. apply map_ext. intros r. cbn [fst snd].
  now rewrite cells_where_twice.
Qed.

Lemma masked_all (t : table) :
  well_formed t -> masked (fun _ => true) t = t.
Proof.
  intros H. destruct t as [hdr rows]. unfold masked, well_formed in *.
  cbn [header body] in *. f_equal.
  - clear H. induction hdr as [|h hs IH]; [reflexivity|]. cbn [filter].
    f_equal. exact IH.
  - rewrite <- (map_id rows) at 2. apply map_ext_in. intros [i cells] Hr.
    cbn [fst snd]. f_equal. apply cells_where_all.
    rewrite Forall_forall in H. apply (H _ Hr).
Qed.

Lemma slim_from (prefixes : list string) :
  forall (keep : string -> bool) (t : table),
    NoDup (header t) ->
    fold_left (fun model_df p => and_then model_df (drop_prefix p))
              prefixes (Got (masked keep t))
    = Got (masked (fun h => keep h && survives prefixes h) t).
Proof.
  induction prefixes as [|p ps IH]; intros keep t Hnd; cbn [fold_left].
  - f_equal. unfold masked. f_equal.
    + apply filter_ext. intros h. cbn. now rewrite andb_true_r.
    + apply map_ext. intros r. f_equal. apply cells_where_ext.
      intros h _. cbn. now rewrite andb_true_r.
  - cbn [and_then]. unfold drop_prefix.
    rewrite getitem_list_masked
      by (cbn [masked header]; apply NoDup_filter, Hnd).
    rewrite masked_twice, (IH _ t Hnd). f_equal. unfold masked. f_equal.
    + apply filter_ext. intros h. cbn [survives forallb].
      now rewrite andb_assoc.
    + apply map_ext. intros r. f_equal. apply cells_where_ext.
      intros h _. cbn [survives forallb]. now rewrite andb_assoc.
Qed.

End TableFacts.

Lemma is_label_spec (h : string) :
  Table.is_label h = true <-> h = "conversion_rate"%string.
Proof. apply String.eqb_eq. Qed.

Lemma not_label (h : string) (l : list string) :
  ~ In "conversion_rate"%string l -> In h l -> Table.is_label h = false.
Proof.
  intros Hl Hh. destruct (Table.is_label h) eqn:E; [|reflexivity].
  apply is_label_spec in E. subst h. contradiction.
Qed.

Lemma cells_where_label_split (pre post : list string) :
  ~ In "conversion_rate"%string pre -> ~ In "conversion_rate"%string post ->
  forall cells,
    length cells = length (pre ++ "conversion_rate"%string :: post) ->
    exists a x b,
      cells = a ++ x :: b /\ length a = length pre /\
      Table.cells_where Table.is_label
        (pre ++ "conversion_rate"%string :: post) cells = [x] /\
      Table.cells_where (fun col => negb (Table.is_label col))
        (pre ++ "conversion_rate"%string :: post) cells = a ++ b.
Proof.
  intros Hpre Hpost. induction pre as [|p pre IH]; intros cells Hlen.
  - destruct cells as [|x b]; [discriminate|].
    exists [], x, b. cbn [app Table.cells_where].
    change (Table.is_label "conversion_rate") with true. cbn [negb].
    repeat split.
    + f_equal. apply cells_where_none. intros h Hh.
      apply (@not_label h post Hpost Hh).
    + rewrite (cells_where_ext _ (fun _ => true)).
      * apply cells_where_all. simpl in Hlen. lia.
      * intros h Hh. now rewrite (@not_label h post Hpost Hh).
  - destruct cells as [|c cs]; [discriminate|].
    assert (Hp : Table.is_label p = false)
      by (apply (@not_label p (p :: pre) Hpre); left; reflexivity).
    destruct (IH (fun H => Hpre (or_intror H)) cs)
      as (a & x & b & -> & Ha & E1 & E2).
    { simpl in Hlen. simpl. lia. }
    exists (c :: a), x, b. cbn [app Table.cells_where].
    rewrite Hp. cbn [negb]. repeat split.
    + simpl. now rewrite Ha.
    + exact E1.
    + f_equal. exact E2.
Qed.

(** X17: the export of a subset raises [KeyError] when the frame has no
    ['conversion_rate'] column; when exactly one column has that label and
    every row has one value per column, it writes one record per row, in row
    order, made of the row's label value followed by its other values in
    column order, so [feature_dim + 1] fields in all. *)
Theorem to_csv_rows_layout (t : Table.table) :
  (~ In "conversion_rate"%string (Table.header t) ->
   Table.to_csv_rows t = Table.Failed (Table.KeyError "conversion_rate"))
  /\
  (forall pre post,
     Table.header t = pre ++ "conversion_rate"%string :: post ->
     ~ In "conversion_rate"%string pre ->
     ~ In "conversion_rate"%string post ->
     Table.well_formed t ->
     exists records,
       Table.to_csv_rows t = Table.Got records /\
       Forall2 (fun r record =>
                  exists a x b,
                    snd r = a ++ x :: b /\ length a = length pre /\
                    record = x :: a ++ b)
               (Table.body t) records /\
       Forall (fun record =>
                 Z.of_nat (length record)
                 = (Table.feature_dim (Table.header t) + 1)%Z)
              records).
Proof.
  split.
  - intros H. unfold Table.to_csv_rows.
    destruct (existsb Table.is_label (Table.header t)) eqn:E; [|reflexivity].
    apply existsb_exists in E. destruct E as [h [Hh E]].
    apply is_label_spec in E. subst h. contradiction.
  - intros pre post Ehdr Hpre Hpost Hwf. unfold Table.to_csv_rows.
    assert (E : existsb Table.is_label (Table.header t) = true).
    { apply existsb_exists. exists "conversion_rate"%string.
      split; [|reflexivity]. rewrite Ehdr. apply in_or_app. right. now left. }
    rewrite E. eexists. split; [reflexivity|].
    unfold Table.well_formed in Hwf. rewrite Ehdr in *.
    split.
    + induction (Table.body t) as [|r l IH]; [constructor|].
      inversion Hwf as [|? ? Hr Hl]; subst. cbn [map].
      constructor; [|apply IH, Hl].
      destruct (@cells_where_label_split pre post Hpre Hpost _ Hr)
        as (a & x & b & Ecells & Ha & E1 & E2).
      exists a, x, b. split; [exact Ecells|]. split; [exact Ha|].
      rewrite E1, E2. reflexivity.
    + apply Forall_forall. intros record Hrec.
      apply in_map_iff in Hrec. destruct Hrec as [r [<- Hr]].
      rewrite Forall_forall in Hwf. specialize (Hwf r Hr).
      destruct (@cells_where_label_split pre post Hpre Hpost _ Hwf)
        as (a & x & b & Ecells & Ha & E1 & E2).
      rewrite E1, E2. unfold Table.feature_dim.
      rewrite Ecells in Hwf. rewrite !length_app in Hwf.
      cbn [app length]. rewrite !length_app. cbn [length] in Hwf |- *.
      lia.
Qed.

Lemma to_csv_rows_layout_witness :
  Table.to_csv_rows (Table.mkTable ["rewarded"%string] [(0%nat, [1%Q])])
  = Table.Failed (Table.KeyError "conversion_rate")
  /\
  exists records,
    Table.to_csv_rows Samples.label_last = Table.Got records /\
    Forall2 (fun r record =>
               exists a x b,
                 snd r = a ++ x :: b /\
                 length a = length ["rewarded"%string] /\
                 record = x :: a ++ b)
            (Table.body Samples.label_last) records /\
    Forall (fun record =>
              Z.of_nat (length record)
              = (Table.feature_dim (Table.header Samples.label_last) + 1)%Z)
           records.
Proof.
  split.
  - apply (proj1 (to_csv_rows_layout
                    (Table.mkTable ["rewarded"%string] [(0%nat, [1%Q])]))).
    simpl. intros [H | []]. discriminate H.
  - apply (proj2 (to_csv_rows_layout Samples.label_last)
             ["rewarded"%string] []).
    + reflexivity.
    + simpl. intros [H | []]. discriminate H.
    + simpl. intros [].
    + repeat constructor.
Defined.

(** X18: on a frame with distinct column labels and one value per column in
    every row, the column-dropping lines of cells 26 and 33 never raise and
    leave exactly the columns whose label none of the prefixes starts, in
    their order and with their values, the rows and their index labels being
    untouched; the result again has distinct labels and full rows.  The
    label column survives whenever no prefix starts ['conversion_rate'], as
    is the case for the prefixes of both cells. *)
Theorem slim_keeps_other_columns (prefixes : list string) (t : Table.table) :
  NoDup (Table.header t) -> Table.well_formed t ->
  Table.slim prefixes t = Table.Got (Table.masked (Table.survives prefixes) t)
  /\ Table.well_formed (Table.masked (Table.survives prefixes) t)
  /\ NoDup (Table.header (Table.masked (Table.survives prefixes) t))
  /\ map fst (Table.body (Table.masked (Table.survives prefixes) t))
     = map fst (Table.body t)
  /\ (Table.survives prefixes "conversion_rate" = true ->
      In "conversion_rate"%string (Table.header t) ->
      In "conversion_rate"%string
         (Table.header (Table.masked (Table.survives prefixes) t)))
  /\ Table.survives Table.cell_26_prefixes "conversion_rate" = true
  /\ Table.survives Table.cell_33_prefixes "conversion_rate" = true.
Proof.
  intros Hnd Hwf. split; [|split; [|split; [|split; [|split; [|split]]]]].
  - unfold Table.slim. rewrite <- (masked_all Hwf) at 1.
    rewrite (@slim_from prefixes (fun _ => true) t Hnd). reflexivity.
  - apply masked_well_formed, Hwf.
  - cbn [Table.masked Table.header]. apply NoDup_filter, Hnd.
  - cbn [Table.masked Table.body]. rewrite map_map. reflexivity.
  - intros Hs Hin. cbn [Table.masked Table.header].
    apply filter_In. split; assumption.
  - reflexivity.
  - reflexivity.
Qed.

Lemma slim_keeps_other_columns_witness :
  Table.slim Table.cell_26_prefixes Samples.wide
  = Table.Got (Table.masked (Table.survives Table.cell_26_prefixes)
                            Samples.wide)
  /\ Table.well_formed
       (Table.masked (Table.survives Table.cell_26_prefixes) Samples.wide)
  /\ NoDup (Table.header
              (Table.masked (Table.survives Table.cell_26_prefixes)
                            Samples.wide))
  /\ map fst (Table.body
                (Table.masked (Table.survives Table.cell_26_prefixes)
                              Samples.wide))
     = map fst (Table.body Samples.wide)
  /\ (Table.survives Table.cell_26_prefixes "conversion_rate" = true ->
      In "conversion_rate"%string (Table.header Samples.wide) ->
      In "conversion_rate"%string
         (Table.header
            (Table.masked (Table.survives Table.cell_26_prefixes)
                          Samples.wide)))
  /\ Table.survives Table.cell_26_prefixes "conversion_rate" = true
  /\ Table.survives Table.cell_33_prefixes "conversion_rate" = true.
Proof.
  apply (@slim_keeps_other_columns Table.cell_26_prefixes Samples.wide).
  - simpl. repeat constructor; simpl; intuition discriminate.
  - repeat constructor.
Defined.

Lemma kept_in_features (feats : list string) (ws : list Q) (c : string) :
  In c (Table.feat_to_keep (combine feats ws)) -> In c feats.
Proof.
  unfold Table.feat_to_keep. intros H. apply in_map_iff in H.
  destruct H as [[c' w] [<- H]]. apply filter_In in H. destruct H as [H _].
  apply (in_combine_l _ _ _ _ H).
Qed.

Lemma kept_is_filter (feats : list string) :
  NoDup feats ->
  forall ws,
    filter (fun c => existsb (String.eqb c)
                       (Table.feat_to_keep (combine feats ws))) feats
    = Table.feat_to_keep (combine feats ws).
Proof.
  induction feats as [|f fs IH]; intros Hnd ws; [reflexivity|].
  inversion Hnd as [|? ? Hnotin Hnd']; subst.
  destruct ws as [|w ws].
  - cbn [combine Table.feat_to_keep filter map existsb].
    apply filter_none. reflexivity.
  - assert (Hf : existsb (String.eqb f)
                   (Table.feat_to_keep (combine fs ws)) = false).
    { destruct (existsb _ _) eqn:E; [|reflexivity].
      apply labelled_spec in E. apply kept_in_features in E. contradiction. }
    unfold Table.feat_to_keep in *. cbn [combine filter snd].
    destruct (negb (Qle_bool (Qabs w) (1 # 1000))); cbn [map fst filter existsb].
    + rewrite String.eqb_refl. cbn [orb]. f_equal.
      etransitivity; [|apply (IH Hnd' ws)]. apply filter_ext_in.
      intros c Hc.
      assert (E : String.eqb c f = false).
      { apply String.eqb_neq. intros ->. contradiction. }
      now rewrite E.
    + rewrite Hf. apply IH, Hnd'.
Qed.

Lemma combine_maps {A B C : Type} (f : A -> B) (g : A -> C) (l : list A) :
  combine (map f l) (map g l) = map (fun x => (f x, g x)) l.
Proof. induction l as [|a l IH]; simpl; [|rewrite IH]; reflexivity. Qed.

Lemma cells_where_label_last (kept : list string) :
  ~ In "conversion_rate"%string kept ->
  forall kc x,
    length kc = length kept ->
    Table.cells_where Table.is_label
      (kept ++ ["conversion_rate"%string]) (kc ++ [x]) = [x] /\
    Table.cells_where (fun col => negb (Table.is_label col))
      (kept ++ ["conversion_rate"%string]) (kc ++ [x]) = kc.
Proof.
  induction kept as [|k kept IH]; intros Hk kc x Hlen.
  - destruct kc; [|discriminate]. split; reflexivity.
  - destruct kc as [|c kc]; [discriminate|].
    assert (Hl : Table.is_label k = false)
      by (apply (@not_label k (k :: kept) Hk); left; reflexivity).
    destruct (IH (fun H => Hk (or_intror H)) kc x) as [E1 E2].
    { simpl in Hlen. lia. }
    cbn [app Table.cells_where]. rewrite Hl. cbn [negb].
    split; [exact E1 | f_equal; exact E2].
Qed.

(** X19: cell 39, on a frame whose first column is the label, whose column
    labels are distinct and whose rows are full, given one weight per feature
    column: [model_df] holds the feature columns whose weight exceeds 0.001
    in absolute value, in their order, followed by ['conversion_rate'] as the
    last column; its [feature_dim] is the number of features kept; and its
    export writes, for each row, the label value first and then the values of
    the kept features. *)
Theorem threshold_keeps_heavy_features
  (weights : list Q) (t : Table.table) (feats : list string) :
  Table.header t = "conversion_rate"%string :: feats ->
  NoDup (Table.header t) -> Table.well_formed t ->
  length weights = length feats ->
  let kept := Table.feat_to_keep (combine feats weights) in
  exists model_df,
    Table.threshold weights t = Some (Table.Got model_df) /\
    Table.header model_df = kept ++ ["conversion_rate"%string] /\
    Table.feature_dim (Table.header model_df) = Z.of_nat (length kept) /\
    Table.well_formed model_df /\
    Table.to_csv_rows model_df
    = Table.Got
        (map (fun r =>
                hd 0%Q (snd r)
                :: Table.cells_where
                     (fun col => existsb (String.eqb col) kept)
                     (Table.header t) (snd r))
             (Table.body t)).
Proof.
  intros Ehdr Hnd Hwf Hlen kept.
  set (m := fun col => existsb (String.eqb col) kept).
  assert (Hnd' : NoDup ("conversion_rate"%string :: feats))
    by (rewrite <- Ehdr; exact Hnd).
  inversion Hnd' as [|? ? Hlab Hfeats]; subst.
  assert (Hkl : ~ In "conversion_rate"%string kept).
  { intros H. apply kept_in_features in H. contradiction. }
  assert (Hml : m "conversion_rate"%string = false).
  { unfold m. destruct (existsb _ _) eqn:E; [|reflexivity].
    apply labelled_spec in E. contradiction. }
  assert (Hkept : filter m (Table.header t) = kept).
  { rewrite Ehdr. cbn [filter]. rewrite Hml.
    apply (kept_is_filter Hfeats weights). }
  assert (Hlabelled : filter Table.is_label (Table.header t)
                      = ["conversion_rate"%string]).
  { rewrite Ehdr. cbn [filter].
    change (Table.is_label "conversion_rate") with true. cbv iota. f_equal.
    apply filter_none. intros h Hh. apply (@not_label h feats Hlab Hh). }
  assert (Hrow : forall r, In r (Table.body t) ->
             exists x rest,
               snd r = x :: rest /\ length rest = length feats /\
               Table.cells_where Table.is_label (Table.header t) (snd r)
               = [x] /\
               Table.cells_where m (Table.header t) (snd r)
               = Table.cells_where m feats rest).
  { intros r Hr. unfold Table.well_formed in Hwf.
    rewrite Forall_forall in Hwf. specialize (Hwf r Hr).
    rewrite Ehdr in *. destruct (snd r) as [|x rest]; [discriminate|].
    exists x, rest. cbn [Table.cells_where].
    change (Table.is_label "conversion_rate") with true. rewrite Hml.
    cbv iota. repeat split; [simpl in Hwf; lia|].
    f_equal. apply cells_where_none. intros h Hh.
    apply (@not_label h feats Hlab Hh). }
  assert (Hmw : Inspector.model_weights (Table.header t) weights
                = Ok (combine feats weights)).
  { unfold Inspector.model_weights, Inspector.feature_columns.
    rewrite Ehdr. cbn [tl]. now rewrite Hlen, Nat.eqb_refl. }
  pose proof (@getitem_list_masked m t Hnd) as Hget. rewrite Hkept in Hget.
  unfold Table.threshold. rewrite Hlabelled, Hmw.
  fold kept. rewrite Hget. cbn [Table.and_then].
  unfold Table.setitem_label.
  cbn [Table.masked Table.header Table.body]. rewrite Hkept.
  assert (Hno : existsb Table.is_label kept = false).
  { destruct (existsb _ _) eqn:E; [|reflexivity].
    apply existsb_exists in E. destruct E as [h [Hh E]].
    apply is_label_spec in E. subst h. contradiction. }
  rewrite Hno, combine_maps, map_map. cbn [fst snd].
  eexists. split; [reflexivity|]. cbn [Table.header Table.body].
  split; [reflexivity|]. split.
  { unfold Table.feature_dim. rewrite length_app. simpl. lia. }
  split.
  - unfold Table.well_formed. cbn [Table.header Table.body].
    apply Forall_forall. intros r' Hr'. apply in_map_iff in Hr'.
    destruct Hr' as [r [<- Hr]]. cbn [snd].
    destruct (Hrow r Hr) as (x & rest & Er & Hrest & _ & Em).
    rewrite !length_app, Em. cbn [length].
    rewrite (cells_where_length m feats rest Hrest).
    rewrite Ehdr in Hkept. cbn [filter] in Hkept. rewrite Hml in Hkept.
    now rewrite Hkept.
  - unfold Table.to_csv_rows. cbn [Table.header Table.body].
    assert (Hyes : existsb Table.is_label (kept ++ ["conversion_rate"%string])
                   = true).
    { rewrite existsb_app. cbn. apply orb_true_r. }
    rewrite Hyes, map_map. f_equal. apply map_ext_in. intros r Hr.
    cbn [snd].
    destruct (Hrow r Hr) as (x & rest & Er & Hrest & El & Em).
    rewrite El, Er. cbn [hd].
    assert (Hkc : length (Table.cells_where m (Table.header t) (x :: rest))
                  = length kept).
    { rewrite <- Er, Em, (cells_where_length m feats rest Hrest).
      rewrite Ehdr in Hkept. cbn [filter] in Hkept. rewrite Hml in Hkept.
      now rewrite Hkept. }
    destruct (@cells_where_label_last kept Hkl _ x Hkc) as [E1 E2].
    rewrite E1, E2. reflexivity.
Qed.

Lemma threshold_keeps_heavy_features_witness :
  exists model_df,
    Table.threshold [0; 1 # 2; 1 # 10000]%Q Samples.wide
    = Some (Table.Got model_df) /\
    Table.header model_df
    = Table.feat_to_keep
        (combine ["app_bundle-a"; "banner_width-300"; "rewarded"]%string
                 [0; 1 # 2; 1 # 10000]%Q)
      ++ ["conversion_rate"%string] /\
    Table.feature_dim (Table.header model_df)
    = Z.of_nat
        (length
           (Table.feat_to_keep
              (combine ["app_bundle-a"; "banner_width-300"; "rewarded"]%string
                       [0; 1 # 2; 1 # 10000]%Q))) /\
    Table.well_formed model_df /\
    Table.to_csv_rows model_df
    = Table.Got
        (map (fun r =>
                hd 0%Q (snd r)
                :: Table.cells_where
                     (fun col =>
                        existsb (String.eqb col)
                          (Table.feat_to_keep
                             (combine
                                ["app_bundle-a"; "banner_width-300";
                                 "rewarded"]%string
                                [0; 1 # 2; 1 # 10000]%Q)))
                     (Table.header Samples.wide) (snd r))
             (Table.body Samples.wide)).
Proof.
  apply (@threshold_keeps_heavy_features [0; 1 # 2; 1 # 10000]%Q Samples.wide
           ["app_bundle-a"; "banner_width-300"; "rewarded"]%string).
  - reflexivity.
  - simpl. repeat constructor; simpl; intuition discriminate.
  - repeat constructor.
  - reflexivity.
Defined.

(** ** Stripping the one-hot suffix *)

Lemma before_dash_clean (col : string) :
  ~ In "-"%char (list_ascii_of_string (Inspector.before_dash col)).
Proof.
  induction col as [|ch rest IH]; simpl; [intros []|].
  destruct (Ascii.eqb ch "-"%char) eqn:E; simpl; [intros []|].
  intros [H | H]; [|exact (IH H)].
  subst ch. discriminate E.
Qed.

Lemma before_dash_fixed (g : string) :
  ~ In "-"%char (list_ascii_of_string g) -> Inspector.before_dash g = g.
Proof.
  induction g as [|ch rest IH]; simpl; intros H; [reflexivity|].
  destruct (Ascii.eqb ch "-"%char) eqn:E.
  - apply Ascii.eqb_eq in E. subst ch. exfalso. apply H. left. reflexivity.
  - f_equal. apply IH. intros Hin. apply H. right. exact Hin.
Qed.

(** X15: stripping undoes the one-hot naming: for a field name without
    ['-'], the column named [field-value] is put back under [field],
    whatever the value (which may itself hold ['-']); in general the
    top-level name of a column holds no ['-'], starts the column's label, and
    is its own top-level name. *)
Theorem before_dash_undoes_one_hot (field value col : string) :
  (~ In "-"%char (list_ascii_of_string field) ->
   Inspector.before_dash (field ++ "-" ++ value)%string = field)
  /\ ~ In "-"%char (list_ascii_of_string (Inspector.before_dash col))
  /\ Inspector.startswith col (Inspector.before_dash col) = true
  /\ Inspector.before_dash (Inspector.before_dash col)
     = Inspector.before_dash col.
Proof.
  split; [|split; [|split]].
  - induction field as [|ch rest IH]; simpl; intros H; [reflexivity|].
    destruct (Ascii.eqb ch "-"%char) eqn:E.
    + apply Ascii.eqb_eq in E. subst ch. exfalso. apply H. left. reflexivity.
    + f_equal. apply IH. intros Hin. apply H. right. exact Hin.
  - apply before_dash_clean.
  - apply startswith_before_dash.
  - apply before_dash_fixed, before_dash_clean.
Qed.

Lemma before_dash_undoes_one_hot_witness :
  Inspector.before_dash ("app_bundle" ++ "-" ++ "com.foo-bar")%string
  = "app_bundle"%string.
Proof.
  apply (proj1 (before_dash_undoes_one_hot
                  "app_bundle" "com.foo-bar" EmptyString)).
  simpl. intuition discriminate.
Defined.

(** ** The resampler whatever the rounding of ties *)

Lemma round_half_away_bounds (q : Q) :
  (Qfloor q <= Python2.round_half_away q <= Qfloor q + 1)%Z.
Proof.
  unfold Python2.round_half_away.
  destruct (q - inject_Z (Qfloor q) ?= 1 # 2)%Q; try lia.
  destruct (0 <=? Qfloor q)%Z; lia.
Qed.

Lemma round_half_away_lower (z : Z) (q : Q) :
  (inject_Z z <= q)%Q -> (z <= Python2.round_half_away q)%Z.
Proof.
  intros H. apply Qfloor_resp_le in H. rewrite Qfloor_Z in H.
  pose proof (round_half_away_bounds q). lia.
Qed.

Lemma round_half_away_upper (z : Z) (q : Q) :
  (q <= inject_Z z)%Q -> (Python2.round_half_away q <= z)%Z.
Proof.
  intros H.
  assert (Hf : (Qfloor q <= z)%Z).
  { apply Qfloor_resp_le in H. now rewrite Qfloor_Z in H. }
  destruct (Z.eq_dec (Qfloor q) z) as [E|E].
  - unfold Python2.round_half_away. rewrite E.
    assert (Hlt : (q - inject_Z z < 1 # 2)%Q) by lra.
    rewrite Qlt_alt in Hlt. rewrite Hlt. lia.
  - pose proof (round_half_away_bounds q). lia.
Qed.

Lemma round_agree_off_ties (q : Q) :
  Python2.tie q = false ->
  Python2.round_half_away q = round_half_even q.
Proof.
  unfold Python2.tie, Python2.round_half_away, round_half_even.
  destruct (q - inject_Z (Qfloor q) ?= 1 # 2)%Q;
    [discriminate | reflexivity | reflexivity].
Qed.

(** The cell's three outcomes, for any rounding that respects the integers
    below and above its argument. *)
Lemma resample_with_cases (round : Q -> Z) (rng : list nat) (df : DataFrame) :
  (forall z q, (inject_Z z <= q)%Q -> (z <= round q)%Z) ->
  (forall z q, (q <= inject_Z z)%Q -> (round q <= z)%Z) ->
  let c := length (filter converted (rows df)) in
  let t := length (rows df) in
  (t - c = 0)%nat /\
  Python2.resample_with round rng df = Raise ZeroDivisionError
  \/
  (t - c <> 0)%nat /\ (t - c < 20 * c)%nat /\
  Python2.resample_with round rng df
  = Raise (ValueError "Cannot take a larger sample than population when 'replace=False'")
  \/
  (t - c <> 0)%nat /\ (20 * c <= t - c)%nat /\
  exists out, Python2.resample_with round rng df = Ok out.
Proof.
  intros Hlo Hhi c t.
  assert (Hct : (c <= t)%nat) by apply filter_length_le.
  unfold Python2.resample_with. rewrite sample_rate_unfold. fold c t.
  destruct (Nat.eqb (t - c) O) eqn:Em.
  - left. apply Nat.eqb_eq in Em. split; [exact Em | reflexivity].
  - right. apply Nat.eqb_neq in Em. cbn [bind].
    unfold Python2.sample_with, len. fold t.
    set (q := (inject_Z (Z.of_nat c) * 20 / inject_Z (Z.of_nat (t - c))
               * inject_Z (Z.of_nat t))%Q).
    assert (Eq : (q == inject_Z (20 * Z.of_nat c * Z.of_nat t)
                       / inject_Z (Z.of_nat (t - c)))%Q)
      by (apply rate_times_len; exact Em).
    assert (H0 : (0 <= round q)%Z).
    { apply Hlo. rewrite Eq. apply quotient_lower; [exact Em | lia]. }
    destruct (round q <? 0)%Z eqn:E0; [apply Z.ltb_lt in E0; lia|].
    destruct (le_lt_dec (20 * c) (t - c)) as [L|L].
    + right. split; [exact Em|]. split; [exact L|].
      assert (Hup : (round q <= Z.of_nat t)%Z).
      { apply Hhi. rewrite Eq. apply quotient_upper; [exact Em | nia]. }
      destruct (Z.of_nat t <? round q)%Z eqn:E1;
        [apply Z.ltb_lt in E1; lia|].
      cbn [bind]. eexists. reflexivity.
    + left. split; [exact Em|]. split; [exact L|].
      assert (Hab : (Z.of_nat t + 1 <= round q)%Z).
      { apply Hlo. rewrite Eq. apply quotient_lower; [exact Em | nia]. }
      destruct (Z.of_nat t <? round q)%Z eqn:E1; [reflexivity|].
      apply Z.ltb_ge in E1. lia.
Qed.

(** X20: under the notebook's Python 2 kernel, whose [round] sends ties away
    from zero, the resampling cell raises the same exception or yields a
    dataset in exactly the same cases as under round-half-to-even, and it
    yields the very same dataset unless [sample_rate * T] lies exactly half
    way between two integers. *)
Theorem resample_python2 (rng : list nat) (df : DataFrame) :
  Python2.resample_with round_half_even rng df = Resampler.resample rng df
  /\
  (forall e, Python2.resample_with Python2.round_half_away rng df = Raise e
             <-> Resampler.resample rng df = Raise e)
  /\
  (forall rate,
     Resampler.sample_rate df = Ok rate ->
     Python2.tie (rate * inject_Z (Z.of_nat (len df)))%Q = false ->
     Python2.resample_with Python2.round_half_away rng df
     = Resampler.resample rng df).
Proof.
  assert (Hsame : Python2.resample_with round_half_even rng df
                  = Resampler.resample rng df) by reflexivity.
  split; [exact Hsame|]. split.
  - intros e. rewrite <- Hsame.
    pose proof (resample_with_cases Python2.round_half_away rng df
                  round_half_away_lower round_half_away_upper) as H2.
    pose proof (resample_with_cases round_half_even rng df
                  round_half_even_lower round_half_even_upper) as H3.
    cbv zeta in H2, H3.
    destruct H2 as [[A2 R2] | [(A2 & B2 & R2) | (A2 & B2 & [o2 R2])]];
      destruct H3 as [[A3 R3] | [(A3 & B3 & R3) | (A3 & B3 & [o3 R3])]];
      try lia; rewrite R2, R3; split; intros H; try exact H;
      discriminate H.
  - intros rate Hrate Htie. rewrite <- Hsame.
    unfold Python2.resample_with. rewrite Hrate. cbn [bind].
    unfold Python2.sample_with.
    now rewrite (round_agree_off_ties _ Htie).
Qed.

Lemma resample_python2_witness :
  Python2.resample_with Python2.round_half_away [2; 5]%nat
    (Examples.one_in 21)
  = Resampler.resample [2; 5]%nat (Examples.one_in 21).
Proof.
  apply (proj2 (proj2 (resample_python2 [2; 5]%nat (Examples.one_in 21)))
           (20 # 21)).
  - vm_compute. reflexivity.
  - vm_compute. reflexivity.
Defined.
